(** * Explicit Folding

    A Rocq model of the Explicit Folding extension for VS Code.

    - [Js] : the JavaScript values the extension handles ([any]-typed
      configuration data, rule objects, dates).
    - [Extension] : [src/extension.ts], function by function, over an
      explicit host state (messages, timers, registrations) with an
      exception outcome.
    - [Engine] : the rule-driven folding engine behind [FoldingProvider].
    - [Behaviour] : what the functions of [src/extension.ts] keep and
      compose to.
    - [Activation] : the listener of [setupAutoFold] and the version
      check of [activate]. *)

From Stdlib Require Import ZArith Lia.
From stdpp Require Import base option list strings pretty gmap fin_maps.

Open Scope string_scope.
Open Scope list_scope.
Set Warnings "-register-all".

(** ** JavaScript values *)

Module Js.

(** Configuration data reaches the extension as [any]: JSON-like values,
    and the functions that objects carry as members. Numbers are integers
    here; objects keep their own fields in insertion order and a property
    read returns the first field of that name. A function is known by its
    name; the extension never calls one it reads this way. *)
Inductive JsValue : Type :=
  | JUndefined
  | JNull
  | JBool (b : bool)
  | JNum (n : Z)
  | JStr (s : string)
  | JArr (items : list JsValue)
  | JObj (fields : list (string * JsValue))
  | JFun (name : string).

(** Induction through the nested lists. *)
Lemma JsValue_nested_ind (P : JsValue → Prop) :
  P JUndefined → P JNull → (∀ b, P (JBool b)) → (∀ n, P (JNum n)) →
  (∀ s, P (JStr s)) →
  (∀ items, Forall P items → P (JArr items)) →
  (∀ fields, Forall (λ kv, P kv.2) fields → P (JObj fields)) →
  (∀ name, P (JFun name)) →
  ∀ v, P v.
Proof.
  intros Hu Hn Hb Hz Hs Ha Ho Hf.
  fix IH 1. intros [ | | b | n | s | items | fields | name ].
  - exact Hu.
  - exact Hn.
  - apply Hb.
  - apply Hz.
  - apply Hs.
  - apply Ha. induction items as [|x xs IHxs]; constructor; [apply IH | exact IHxs].
  - apply Ho. induction fields as [|[k x] xs IHxs]; constructor; [apply IH | exact IHxs].
  - apply Hf.
Qed.

(** [ToBoolean]: what [if (v)], [!v] and [v || d] test. *)
Definition truthy (v : JsValue) : bool :=
  match v with
  | JUndefined | JNull => false
  | JBool b => b
  | JNum n => negb (n =? 0)%Z
  | JStr s => negb (String.eqb s "")
  | JArr _ | JObj _ | JFun _ => true
  end.

(** [a || b] *)
Definition js_or (a b : JsValue) : JsValue := if truthy a then a else b.

(** [Array.isArray(v)], also [v instanceof Array]. *)
Definition isArray (v : JsValue) : bool :=
  match v with JArr _ => true | _ => false end.

Definition is_undefined (v : JsValue) : bool :=
  match v with JUndefined => true | _ => false end.

(** First field named [k], [undefined] when there is none. *)
Fixpoint assoc (k : string) (fields : list (string * JsValue)) : JsValue :=
  match fields with
  | [] => JUndefined
  | (k', v) :: rest => if String.eqb k k' then v else assoc k rest
  end.

Definition is_digit (c : Ascii.ascii) : bool :=
  let n := Ascii.nat_of_ascii c in ((48 <=? n) && (n <=? 57))%nat.

Fixpoint digits_value (s : string) (acc : nat) : option nat :=
  match s with
  | EmptyString => Some acc
  | String c rest =>
      if is_digit c then digits_value rest (10 * acc + (Ascii.nat_of_ascii c - 48))%nat
      else None
  end.

(** A property key that is a canonical array index ("0", "17"; not "01"). *)
Definition index_of_string (s : string) : option nat :=
  match s with
  | EmptyString => None
  | String c rest =>
      if (Ascii.nat_of_ascii c =? 48)%nat then (if String.eqb rest "" then Some 0 else None)
      else digits_value s 0
  end.

(** [arr.includes(s)] on an array of strings. *)
Definition includes (s : string) (arr : list string) : bool :=
  existsb (String.eqb s) arr.

(** The methods of [Object.prototype], which every object has unless a
    member of its own takes the name. *)
Definition Object_prototype_methods : list string :=
  ["constructor"; "hasOwnProperty"; "isPrototypeOf"; "propertyIsEnumerable";
   "toLocaleString"; "toString"; "valueOf";
   "__defineGetter__"; "__defineSetter__"; "__lookupGetter__"; "__lookupSetter__"].

(** [Object.prototype] itself, which is what [o.__proto__] gives on a
    plain object. *)
Definition Object_prototype : JsValue :=
  JObj (map (λ name, (name, JFun name)) Object_prototype_methods).

(** What [o[k]] finds on [Object.prototype] when [o] has no member [k] of
    its own: a method, the prototype for [__proto__], or nothing. *)
Definition inherited (k : string) : JsValue :=
  if String.eqb k "__proto__" then Object_prototype
  else if includes k Object_prototype_methods then JFun k
  else JUndefined.

(** The object has a field named [k] of its own. *)
Definition has_own (k : string) (fields : list (string * JsValue)) : bool :=
  existsb (λ kv, String.eqb k kv.1) fields.

(** The member [k] that [v] has of its own: a field of an object,
    [length] and the elements of an array, [length] and the characters
    of a string. [None] when it has none. *)
Definition own_member (v : JsValue) (k : string) : option JsValue :=
  match v with
  | JObj fields => if has_own k fields then Some (assoc k fields) else None
  | JArr items =>
      if String.eqb k "length" then Some (JNum (Z.of_nat (length items)))
      else match index_of_string k with
           | Some i => items !! i
           | None => None
           end
  | JStr s =>
      if String.eqb k "length" then Some (JNum (Z.of_nat (String.length s)))
      else match index_of_string k with
           | Some i => match String.get i s with
                       | Some c => Some (JStr (String c EmptyString))
                       | None => None
                       end
           | None => None
           end
  | _ => None
  end.

(** [v[k]] for a name [k] that no built-in prototype other than
    [Object.prototype] defines. [None] is the TypeError of reading a
    property of [null] or [undefined]; the value answers with its own
    member, then with what it inherits from [Object.prototype], and a
    missing property reads as [undefined]. *)
Definition get_prop (v : JsValue) (k : string) : option JsValue :=
  match v with
  | JUndefined | JNull => None
  | _ => Some (default (inherited k) (own_member v k))
  end.

(** A [Date] as its local calendar fields; [getMonth] counts from 0.
    Two dates compare as their time values do, which on these fields is
    the lexicographic order. *)
Record Date := mkDate {
  getFullYear : Z;
  getMonth : Z;
  getDate : Z;
  msOfDay : Z
}.

(** [new Date(year, month, day)]: local midnight at the start of the day. *)
Definition Date_ymd (y m d : Z) : Date := mkDate y m d 0.

(** [a > b] on dates. *)
Definition date_gt (a b : Date) : bool :=
  if (getFullYear a =? getFullYear b)%Z then
    if (getMonth a =? getMonth b)%Z then
      if (getDate a =? getDate b)%Z then (msOfDay b <? msOfDay a)%Z
      else (getDate b <? getDate a)%Z
    else (getMonth b <? getMonth a)%Z
  else (getFullYear b <? getFullYear a)%Z.

(** The calendar day of [a] is strictly later than the day of [b]. *)
Definition day_after (a b : Date) : bool :=
  date_gt (Date_ymd (getFullYear a) (getMonth a) (getDate a))
          (Date_ymd (getFullYear b) (getMonth b) (getDate b)).

Lemma includes_app s xs ys : includes s (xs ++ ys) = includes s xs || includes s ys.
Proof. unfold includes. apply existsb_app. Qed.

End Js.

(** ** The editor API surface used by the extension *)

Module Vscode.
Import Js.

(** A [vscode.TextDocument] object. [object_id] stands for the identity
    of the object, which is what [===] and [Array.includes] compare: the
    editor keeps one object per open document and makes a new one, with
    the same [uri] and [languageId], when a file is closed and opened
    again. Both members are read-only, so two values that denote one
    object agree on them and equality of the records is identity. *)
Record TextDocument := mkDocument {
  object_id : nat;
  uri : string;
  languageId : string
}.

#[global] Instance TextDocument_eq_dec : EqDecision TextDocument.
Proof. solve_decision. Defined.

Inductive FoldingRangeKind := Region | Comment.

Record FoldingRange := mkFoldingRange {
  range_start : nat;
  range_end : nat;
  range_kind : FoldingRangeKind
}.

(** [vscode.WorkspaceConfiguration]: the object handed out by
    [getConfiguration]. [wc_keys] are its own enumerable keys, which is
    what [Object.keys] lists (the object's API members together with the
    section's settings); [wc_values] holds the settings. *)
Record WorkspaceConfiguration := mkConfiguration {
  wc_keys : list string;
  wc_values : gmap string JsValue
}.

(** [config.get(key)] *)
Definition wc_get (c : WorkspaceConfiguration) (k : string) : JsValue :=
  default JUndefined (wc_values c !! k).

(** [config.has(key)]: the key resolves to something other than [undefined]. *)
Definition wc_has (c : WorkspaceConfiguration) (k : string) : bool :=
  negb (is_undefined (wc_get c k)).

(** The methods of a [WorkspaceConfiguration] object. *)
Definition WorkspaceConfiguration_methods : list string :=
  ["has"; "get"; "update"; "inspect"].

(** [config[key]]. The object carries its four methods and inherits from
    [Object.prototype]; the settings of the section are mixed into it as
    further properties, a setting never taking the place of a member the
    object already answers to. *)
Definition wc_prop (c : WorkspaceConfiguration) (k : string) : JsValue :=
  if includes k WorkspaceConfiguration_methods then JFun k
  else if is_undefined (inherited k) then wc_get c k
  else inherited k.

(** What a call reads from its surroundings: the workspace settings (by
    section and optional document scope), the clock, the two runtime
    coercions the extension relies on ([ToNumber] of a non-number, used
    by [>], and [parseInt]; [None] is [NaN]), and the built-in prototypes
    of the runtime: [builtin_member v k] is the member named [k] that a
    value [v] which is not a plain object gets from the prototype of its
    kind ([Array.prototype], [String.prototype], [Number.prototype],
    [Boolean.prototype], [Function.prototype]), [undefined] when that
    prototype has none. Which names these prototypes define depends on
    the edition of the language the editor runs. *)
Record Env := mkEnv {
  getConfiguration : string → option TextDocument → WorkspaceConfiguration;
  now : Date;
  toNumber : JsValue → option Z;
  parseInt : JsValue → option Z;
  builtin_member : JsValue → string → JsValue
}.

End Vscode.

(** ** src/extension.ts *)

Module Extension.
Import Js Vscode.

Definition DEPRECATED_KEY : string := "explicitFoldingDeprecated".

Definition SCHEMES : list string := ["file"; "untitled"; "vscode-userdata"].

(** [new FoldingProvider(rules, channel, $documents)]. The third argument
    is the shared [$documents] array itself, so the provider holds no copy
    of it: that array lives in the host state below. *)
Record FoldingProvider := mkFoldingProvider {
  fp_rules : list JsValue;
  fp_channel : option string
}.

(** One [vscode.languages.registerFoldingRangeProvider({language, scheme},
    provider)] whose disposable was pushed on [$disposable]. *)
Record Registration := mkRegistration {
  reg_language : string;
  reg_scheme : string;
  reg_provider : FoldingProvider
}.

(** The module-level variables and the editor state the extension
    writes to. [h_providers] holds the own properties of the [providers]
    field of the [MainProvider] instance in use; [h_timers] are the
    timers set and not yet run, each with its delay and the document its
    callback was made for; [h_setup_calls] records each entry into
    [setup] (the language it was called for). *)
Record Host := mkHost {
  h_warnings : list string;
  h_errors : list string;
  h_commands : list string;
  h_globalState : gmap string Date;
  h_disposable : list Registration;
  h_timers : list (JsValue * TextDocument);
  h_documents : list TextDocument;
  h_channel : option string;
  h_providers : gmap string bool;
  h_setup_calls : list string
}.

Definition empty_host : Host :=
  mkHost [] [] [] ∅ [] [] [] None ∅ [].

(** A call either returns or throws; the host state survives a throw. *)
Inductive Outcome (A : Type) : Type :=
  | Returned (a : A)
  | Thrown (error : string).
Arguments Returned {A} a.
Arguments Thrown {A} error.

Definition M (A : Type) : Type := Host → Host * Outcome A.

#[global] Instance M_ret : MRet M := λ A a h, (h, Returned a).
#[global] Instance M_bind : MBind M := λ A B f m h,
  match m h with
  | (h', Returned a) => f a h'
  | (h', Thrown e) => (h', Thrown e)
  end.

Definition throw {A} (e : string) : M A := λ h, (h, Thrown e).

Definition showWarningMessage (msg : string) : M unit := λ h,
  (mkHost (h_warnings h ++ [msg]) (h_errors h) (h_commands h) (h_globalState h)
          (h_disposable h) (h_timers h) (h_documents h) (h_channel h)
          (h_providers h) (h_setup_calls h), Returned ()).

Definition showErrorMessage (msg : string) : M unit := λ h,
  (mkHost (h_warnings h) (h_errors h ++ [msg]) (h_commands h) (h_globalState h)
          (h_disposable h) (h_timers h) (h_documents h) (h_channel h)
          (h_providers h) (h_setup_calls h), Returned ()).

Definition executeCommand (cmd : string) : M unit := λ h,
  (mkHost (h_warnings h) (h_errors h) (h_commands h ++ [cmd]) (h_globalState h)
          (h_disposable h) (h_timers h) (h_documents h) (h_channel h)
          (h_providers h) (h_setup_calls h), Returned ()).

Definition globalState_get (key : string) : M (option Date) := λ h,
  (h, Returned (h_globalState h !! key)).

Definition globalState_update (key : string) (value : Date) : M unit := λ h,
  (mkHost (h_warnings h) (h_errors h) (h_commands h) (<[key := value]> (h_globalState h))
          (h_disposable h) (h_timers h) (h_documents h) (h_channel h)
          (h_providers h) (h_setup_calls h), Returned ()).

Definition registerFoldingRangeProvider (language scheme : string)
    (provider : FoldingProvider) : M unit := λ h,
  (mkHost (h_warnings h) (h_errors h) (h_commands h) (h_globalState h)
          (h_disposable h ++ [mkRegistration language scheme provider])
          (h_timers h) (h_documents h) (h_channel h)
          (h_providers h) (h_setup_calls h), Returned ()).

Definition setTimeout (delay : JsValue) (document : TextDocument) : M unit := λ h,
  (mkHost (h_warnings h) (h_errors h) (h_commands h) (h_globalState h)
          (h_disposable h) (h_timers h ++ [(delay, document)]) (h_documents h)
          (h_channel h) (h_providers h) (h_setup_calls h), Returned ()).

Definition documents_push (document : TextDocument) : M unit := λ h,
  (mkHost (h_warnings h) (h_errors h) (h_commands h) (h_globalState h)
          (h_disposable h) (h_timers h) (h_documents h ++ [document])
          (h_channel h) (h_providers h) (h_setup_calls h), Returned ()).

(** [$documents.includes(document)]: this very object is in the array. *)
Definition documents_includes (document : TextDocument) : M bool := λ h,
  (h, Returned (bool_decide (document ∈ h_documents h))).

Definition channel_get : M (option string) := λ h, (h, Returned (h_channel h)).

Definition channel_set (c : string) : M unit := λ h,
  (mkHost (h_warnings h) (h_errors h) (h_commands h) (h_globalState h)
          (h_disposable h) (h_timers h) (h_documents h) (Some c)
          (h_providers h) (h_setup_calls h), Returned ()).

(** [this.providers[language]] as the condition reads it. [providers] is
    a plain object: a name that was never assigned reads as what the
    object inherits from [Object.prototype], which is truthy for the
    name of each of its methods and [undefined] for any other name;
    [__proto__] always reads as the prototype, since an assignment to it
    makes no property. *)
Definition registered (language : string) (h : Host) : bool :=
  if String.eqb language "__proto__" then true
  else match h_providers h !! language with
       | Some b => b
       | None => truthy (inherited language)
       end.

Definition providers_get (language : string) : M bool := λ h,
  (h, Returned (registered language h)).

(** The event loop takes the pending timer at position [i] to run its
    callback: the document the callback was made for, [None] when there
    is no such timer. *)
Definition timers_take (i : nat) : M (option TextDocument) := λ h,
  match h_timers h !! i with
  | Some (_, document) =>
      (mkHost (h_warnings h) (h_errors h) (h_commands h) (h_globalState h)
              (h_disposable h) (delete i (h_timers h)) (h_documents h)
              (h_channel h) (h_providers h) (h_setup_calls h),
       Returned (Some document))
  | None => (h, Returned None)
  end.

Definition providers_set (language : string) (b : bool) : M unit := λ h,
  (mkHost (h_warnings h) (h_errors h) (h_commands h) (h_globalState h)
          (h_disposable h) (h_timers h) (h_documents h) (h_channel h)
          (<[language := b]> (h_providers h)) (h_setup_calls h), Returned ()).

Definition enter_setup (language : string) : M unit := λ h,
  (mkHost (h_warnings h) (h_errors h) (h_commands h) (h_globalState h)
          (h_disposable h) (h_timers h) (h_documents h) (h_channel h)
          (h_providers h) (h_setup_calls h ++ [language]), Returned ()).

(** [for (const x of xs) body(x)] *)
Fixpoint for_of {A} (xs : list A) (body : A → M unit) : M unit :=
  match xs with
  | [] => mret ()
  | x :: rest => _ ← body x; for_of rest body
  end.

(** [v === s] for a string literal [s]. *)
Definition strict_eq_str (v : JsValue) (s : string) : bool :=
  match v with JStr s' => String.eqb s' s | _ => false end.

(** [v > 0] *)
Definition gt_zero (env : Env) (v : JsValue) : bool :=
  match v with
  | JNum n => (0 <? n)%Z
  | _ => match toNumber env v with Some n => (0 <? n)%Z | None => false end
  end.

(** What [v[k]] finds on a value other than [null] and [undefined]: the
    value's own member, else the member the prototype of its kind gives
    it, else what [Object.prototype] gives. A plain object has no
    prototype but [Object.prototype]. *)
Definition member (env : Env) (v : JsValue) (k : string) : JsValue :=
  match own_member v k with
  | Some x => x
  | None =>
      let built_in :=
        match v with JObj _ => JUndefined | _ => builtin_member env v k end in
      if is_undefined built_in then inherited k else built_in
  end.

(** [v[k]], throwing on [null] and [undefined]. *)
Definition read_prop (env : Env) (v : JsValue) (k : string) : M JsValue :=
  match v with
  | JUndefined | JNull => throw "TypeError"
  | _ => mret (member env v k)
  end.

(** *** applyRules *)

(** [rules] is the array the caller passes in; the function pushes onto
    it, which is returned here as the new contents. *)
Definition applyRules (data : JsValue) (rules : list JsValue) : list JsValue :=
  match data with
  | JArr items => rules ++ items
  | _ => if truthy data then rules ++ [data] else rules
  end.

(** *** checkDeprecatedRule, checkDeprecatedRules *)

(** The [for (const r of ...)] loops of [checkDeprecatedRule], threading
    [deprecateds]; [None] is a TypeError raised by one of the calls. *)
Fixpoint check_each (check : JsValue → list string → option (list string))
    (rules : list JsValue) (deprecateds : list string) : option (list string) :=
  match rules with
  | [] => Some deprecateds
  | r :: rest =>
      match check r deprecateds with
      | Some deprecateds' => check_each check rest deprecateds'
      | None => None
      end
  end.

Definition push_descendants (deprecateds : list string) : list string :=
  if includes "descendants" deprecateds then deprecateds
  else deprecateds ++ ["descendants"].

(** [deprecateds] is pushed onto in place; the result is its new
    contents, [None] when [rule.descendants] is read on [null] or
    [undefined]. On a rule that is no object, [descendants] and [nested]
    read as [undefined]: no built-in prototype has members of these
    names. *)
Fixpoint checkDeprecatedRule (rule : JsValue) (deprecateds : list string)
    {struct rule} : option (list string) :=
  let each :=
    fix each (rules : list JsValue) (d : list string) {struct rules} :=
      match rules with
      | [] => Some d
      | r :: rest =>
          match checkDeprecatedRule r d with
          | Some d' => each rest d'
          | None => None
          end
      end in
  match rule with
  | JArr items => each items deprecateds
  | JUndefined | JNull => None
  | JObj fields =>
      if truthy (assoc "descendants" fields) then Some (push_descendants deprecateds)
      else
        (fix nested (fs : list (string * JsValue)) {struct fs} :=
           match fs with
           | [] => Some deprecateds
           | (k, v) :: rest =>
               if String.eqb "nested" k then
                 match v with
                 | JArr items => each items deprecateds
                 | _ => Some deprecateds
                 end
               else nested rest
           end) fields
  | JBool _ | JNum _ | JStr _ | JFun _ => Some deprecateds
  end.

Definition DESCENDANTS_WARNING : string :=
  "Please update your config. The property `descendants` has been deprecated and replaced with the property `nested`. It will be removed in the next version.".

Definition checkDeprecatedRules (rules : list JsValue) : M unit :=
  match checkDeprecatedRule (JArr rules) [] with
  | None => throw "TypeError"
  | Some deprecateds =>
      if includes "descendants" deprecateds then showWarningMessage DESCENDANTS_WARNING
      else mret ()
  end.

(** *** foldDocument *)

(** [for (let i = 7; i >= level; --i)]: the values [i] takes. *)
Definition fold_levels (level : Z) : list Z :=
  map (λ k, 7 - Z.of_nat k)%Z (seq 0 (Z.to_nat (7 - level + 1))).

Definition foldDocument (env : Env) (document : TextDocument) : M unit :=
  let config := getConfiguration env "explicitFolding" (Some document) in
  let autoFold := js_or (wc_get config "autoFold") (JStr "none") in
  _ ← (if strict_eq_str autoFold "all" then executeCommand "editor.foldAll"
       else if strict_eq_str autoFold "comments" then
         executeCommand "editor.foldAllBlockComments"
       else if negb (strict_eq_str autoFold "none") then
         _ ← executeCommand "editor.unfoldAll";
         match parseInt env autoFold with
         | Some level =>
             for_of (fold_levels level)
               (λ i, executeCommand ("editor.foldLevel" +:+ pretty i))
         | None => mret ()
         end
       else mret ());
  known ← documents_includes document;
  if negb known then documents_push document else mret ().

(** *** getDelay *)

Definition STARTUP_DELAY_WARNING : string :=
  "Please update your config. The property `startupDelay` has been deprecated and replaced with the property `delay`. It will be removed in the next version.".

Definition getDelay (config : WorkspaceConfiguration) : M JsValue :=
  if wc_has config "startupDelay" then
    _ ← showWarningMessage STARTUP_DELAY_WARNING;
    mret (js_or (wc_get config "startupDelay") (JNum 0))
  else
    mret (js_or (wc_get config "delay") (JNum 0)).

(** *** getRules *)

Definition FOLDING_UNSUPPORTED_ERROR : string :=
  "Please update your config. The property `folding` is not supported since July 1, 2022. It has been replaced with the property `explicitFolding.rules`.".

Definition FOLDING_DEPRECATED_WARNING : string :=
  "Please update your config. The property `folding` has been deprecated and replaced with the property `explicitFolding.rules`. Its support will stop on July 1, 2022.".

(** [new Date(2022, 6, 1)]: months count from 0, so this is July 1, 2022. *)
Definition JULY_1_2022 : Date := Date_ymd 2022 6 1.

(** [new Date(2022, 5, 1)] *)
Definition JUNE_1_2022 : Date := Date_ymd 2022 5 1.

Definition getRules (env : Env) : M WorkspaceConfiguration :=
  let rules := getConfiguration env "folding" None in
  if (4 <? length (wc_keys rules))%nat then
    value ← globalState_get DEPRECATED_KEY;
    let lastWarning : option Date := value in
    let currentWarning := now env in
    if date_gt currentWarning JULY_1_2022 then
      _ ← showErrorMessage FOLDING_UNSUPPORTED_ERROR;
      mret (getConfiguration env "explicitFolding.rules" None)
    else
      _ ← (if match lastWarning with
              | None => true
              | Some last =>
                  negb (getFullYear last =? getFullYear currentWarning)%Z
                  || negb (getMonth last =? getMonth currentWarning)%Z
                  || date_gt currentWarning JUNE_1_2022
              end
           then
             _ ← globalState_update DEPRECATED_KEY currentWarning;
             showWarningMessage FOLDING_DEPRECATED_WARNING
           else mret ());
      mret rules
  else
    mret (getConfiguration env "explicitFolding.rules" None).

(** *** getDebugChannel *)

Definition getDebugChannel (debug : bool) : M (option string) :=
  if debug then
    current ← channel_get;
    _ ← (if negb (bool_decide (is_Some current)) then channel_set "Folding" else mret ());
    channel_get
  else mret None.

(** *** MainProvider *)

(** The condition of [setup]: [!langRules || langRules[language]]. The
    property is read only when [langRules] is truthy. *)
Definition use_language_key (env : Env) (langRules : JsValue) (language : string)
    : M bool :=
  if negb (truthy langRules) then mret true
  else v ← read_prop env langRules language; mret (truthy v).

Definition setup (env : Env) (document : TextDocument) : M unit :=
  _ ← enter_setup (languageId document);
  let language := languageId document in
  perLanguages ← getRules env;
  let config := getConfiguration env "explicitFolding" (Some document) in
  let rules : list JsValue := [] in
  let langRules := wc_get config "rules" in
  byKey ← use_language_key env langRules language;
  let rules :=
    if (byKey : bool) then applyRules (wc_prop perLanguages language) rules
    else applyRules langRules rules in
  let rules := applyRules (wc_prop perLanguages "*") rules in
  _ ← checkDeprecatedRules rules;
  let debug := truthy (js_or (wc_get config "debug") (JBool false)) in
  channel ← getDebugChannel debug;
  let provider := mkFoldingProvider rules channel in
  _ ← for_of SCHEMES (λ scheme, registerFoldingRangeProvider language scheme provider);
  foldDocument env document.

Definition provideFoldingRanges (env : Env) (document : TextDocument)
    : M (list FoldingRange) :=
  registered ← providers_get (languageId document);
  _ ← (if negb registered then
         _ ← providers_set (languageId document) true;
         let config := getConfiguration env "explicitFolding" (Some document) in
         delay ← getDelay config;
         if gt_zero env delay then setTimeout delay document
         else setup env document
       else mret ());
  mret [].

(** The callback [() => this.setup(document)] that [provideFoldingRanges]
    hands to [setTimeout], run by the event loop for the pending timer at
    position [i]. *)
Definition timeout (env : Env) (i : nat) : M unit :=
  due ← timers_take i;
  match due with
  | Some document => setup env document
  | None => mret ()
  end.

(** What happens to one [MainProvider] over time: the editor asks it for
    the folding ranges of a document, or the event loop runs the callback
    of a pending timer. Each event meets the settings and the clock of
    its moment. *)
Inductive Event :=
  | Call (env : Env) (document : TextDocument)
  | Timeout (env : Env) (i : nat).

(** A series of events with the outcome of each call; what an event
    throws is lost to the ones after it, the host state it left is not. *)
Fixpoint run_events (events : list Event) (h : Host)
    : Host * list (Outcome (list FoldingRange)) :=
  match events with
  | [] => (h, [])
  | Call env document :: rest =>
      let '(h1, o) := provideFoldingRanges env document h in
      let '(h2, os) := run_events rest h1 in
      (h2, o :: os)
  | Timeout env i :: rest => run_events rest (timeout env i h).1
  end.

(** ** Properties of the configuration glue *)

(** *** Rule normalization *)

Lemma applyRules_app (data : JsValue) (rules : list JsValue) :
  applyRules data rules = rules ++ applyRules data [].
Proof.
  unfold applyRules.
  destruct data as [ | | b | n | s | items | fields | name ]; simpl;
    rewrite ?app_nil_r; try done.
  - by destruct b; rewrite ?app_nil_r.
  - by destruct (n =? 0)%Z; simpl; rewrite ?app_nil_r.
  - by destruct (String.eqb s ""); simpl; rewrite ?app_nil_r.
Qed.

(** C6. [applyRules] takes one rule object or an array of them and always
    leaves an array: an array adds its elements in their order, a single
    truthy value that is not an array adds itself as one element, and a
    missing or falsy value adds nothing. What was already in [rules]
    stays in front, unchanged. *)
Theorem applyRules_normalizes (data : JsValue) (rules : list JsValue) :
  (∀ items, data = JArr items → applyRules data rules = rules ++ items) ∧
  (isArray data = false → truthy data = true →
     applyRules data rules = rules ++ [data]) ∧
  (isArray data = false → truthy data = false → applyRules data rules = rules).
Proof.
  split; [|split].
  - by intros items ->.
  - intros Harr Ht. destruct data; simpl in *; try done; by rewrite ?Ht.
  - intros Harr Ht. destruct data; simpl in *; try done; by rewrite ?Ht.
Qed.

Lemma applyRules_normalizes_witness :
  applyRules (JArr [JObj [("begin", JStr "{")]; JObj [("begin", JStr "[")]])
             [JObj [("begin", JStr "(")]]
    = [JObj [("begin", JStr "(")]; JObj [("begin", JStr "{")]; JObj [("begin", JStr "[")]]
  ∧ applyRules (JObj [("begin", JStr "{")]) [JObj [("begin", JStr "(")]]
    = [JObj [("begin", JStr "(")]; JObj [("begin", JStr "{")]]
  ∧ applyRules JUndefined [JObj [("begin", JStr "(")]] = [JObj [("begin", JStr "(")]].
Proof.
  split; [|split].
  - exact (proj1 (applyRules_normalizes _ _) _ eq_refl).
  - exact (proj1 (proj2 (applyRules_normalizes (JObj [("begin", JStr "{")]) _))
             eq_refl eq_refl).
  - exact (proj2 (proj2 (applyRules_normalizes JUndefined _)) eq_refl eq_refl).
Defined.

(** *** getDelay *)

(** C9. [getDelay] reads [startupDelay] whenever the configuration has
    that key, showing the deprecation warning, and reads [delay]
    otherwise, showing nothing; in both branches the value read is
    returned when truthy and 0 stands in for a missing or falsy one. *)
Theorem getDelay_reads_startupDelay_first (config : WorkspaceConfiguration) (h : Host) :
  let deprecated := wc_has config "startupDelay" in
  let key := if deprecated then "startupDelay" else "delay" in
  let value := wc_get config key in
  ∃ h', getDelay config h = (h', Returned (if truthy value then value else JNum 0))
    ∧ h_warnings h' = h_warnings h ++ (if deprecated then [STARTUP_DELAY_WARNING] else [])
    ∧ (deprecated = false → h' = h)
    ∧ (wc_values config !! key = None → getDelay config h = (h', Returned (JNum 0))).
Proof.
  intros deprecated key value. unfold getDelay. subst value key deprecated.
  destruct (wc_has config "startupDelay") eqn:Hhas.
  - eexists. split; [reflexivity|]. simpl. split; [done|]. split; [done|].
    intros Hnone. unfold wc_has, wc_get in Hhas. by rewrite Hnone in Hhas.
  - exists h. split; [reflexivity|]. split; [by rewrite app_nil_r|]. split; [done|].
    intros Hnone. unfold mret, M_ret, js_or, wc_get. by rewrite Hnone.
Qed.

(** *** getRules *)

Lemma day_after_date_gt (a : Date) (y m d : Z) :
  day_after a (Date_ymd y m d) = true → date_gt a (Date_ymd y m d) = true.
Proof.
  unfold day_after, date_gt, Date_ymd. simpl.
  destruct (getFullYear a =? y)%Z; [|done].
  destruct (getMonth a =? m)%Z; [|done].
  destruct (getDate a =? d)%Z; [|done].
  intros H. apply Z.ltb_lt in H. lia.
Qed.

(** C10. With more than 4 keys on the deprecated [folding] section,
    [getRules] shows the error and returns [explicitFolding.rules] once
    the clock is past [new Date(2022, 6, 1)] (in particular on every day
    after July 1, 2022), and returns the [folding] section itself
    otherwise, which can only happen on or before July 1, 2022. With 4
    keys or fewer it returns [explicitFolding.rules] and touches
    nothing. *)
Theorem getRules_folding_cutoff (env : Env) (h : Host) :
  let folding := getConfiguration env "folding" None in
  let explicit := getConfiguration env "explicitFolding.rules" None in
  let many := (4 <? length (wc_keys folding))%nat in
  let late := date_gt (now env) JULY_1_2022 in
  ∃ h', getRules env h =
          (h', Returned (if many && negb late then folding else explicit))
    ∧ h_errors h' = h_errors h ++ (if many && late then [FOLDING_UNSUPPORTED_ERROR] else [])
    ∧ (many = false → h' = h)
    ∧ (day_after (now env) JULY_1_2022 = true → late = true).
Proof.
  intros folding explicit many late.
  assert (Hday : day_after (now env) JULY_1_2022 = true → late = true)
    by apply day_after_date_gt.
  unfold getRules. fold folding explicit. fold many. fold late.
  clearbody late many.
  destruct many; simpl.
  - unfold mbind, M_bind, globalState_get at 1. destruct late; simpl.
    + eexists. split; [reflexivity|]. simpl. repeat split; try done.
    + destruct (h_globalState h !! DEPRECATED_KEY) as [last|]; simpl.
      * destruct (_ || _); simpl;
          (eexists; split; [reflexivity|]; simpl; rewrite ?app_nil_r;
           repeat split; try done).
      * eexists; split; [reflexivity|]; simpl; rewrite ?app_nil_r.
        repeat split; try done.
  - exists h. rewrite app_nil_r. repeat split; try done.
Qed.

(** *** Deprecation check *)

Lemma checkDeprecatedRule_array (items : list JsValue) (deprecateds : list string) :
  checkDeprecatedRule (JArr items) deprecateds
  = check_each checkDeprecatedRule items deprecateds.
Proof.
  simpl. revert deprecateds.
  induction items as [|r rest IH]; intros d; simpl; [done|].
  destruct (checkDeprecatedRule r d); [apply IH | done].
Qed.

Lemma checkDeprecatedRule_object (fields : list (string * JsValue))
    (deprecateds : list string) :
  checkDeprecatedRule (JObj fields) deprecateds
  = if truthy (assoc "descendants" fields) then Some (push_descendants deprecateds)
    else match assoc "nested" fields with
         | JArr items => check_each checkDeprecatedRule items deprecateds
         | _ => Some deprecateds
         end.
Proof.
  cbn [checkDeprecatedRule].
  destruct (truthy (assoc "descendants" fields)); [done|].
  induction fields as [|[k v] rest IH]; [done|].
  cbn [assoc]. destruct (String.eqb "nested" k); [|exact IH].
  destruct v; first [done | apply (checkDeprecatedRule_array items)].
Qed.

(** The rules a check is about: the entries of the list, and the entries
    of every [nested] list of such a rule, at any depth. Arrays are lists
    of rules, anything else is a rule. *)
Inductive rule_of : JsValue → JsValue → Prop :=
  | rule_itself (rule : JsValue) :
      isArray rule = false → rule_of rule rule
  | rule_of_item (items : list JsValue) (x rule : JsValue) :
      x ∈ items → rule_of x rule → rule_of (JArr items) rule
  | rule_of_nested (fields : list (string * JsValue)) (items : list JsValue)
      (x rule : JsValue) :
      assoc "nested" fields = JArr items → x ∈ items → rule_of x rule →
      rule_of (JObj fields) rule.

(** [rule.descendants] is truthy. *)
Definition declares_descendants (rule : JsValue) : bool :=
  match get_prop rule "descendants" with
  | Some v => truthy v
  | None => false
  end.

Lemma assoc_not_own (k : string) (fields : list (string * JsValue)) :
  has_own k fields = false → assoc k fields = JUndefined.
Proof.
  induction fields as [|[k' v] rest IH]; [done|]. simpl.
  destruct (String.eqb k k'); [done | exact IH].
Qed.

(** [descendants] is no name an object inherits: reading it finds the
    object's own field or nothing. *)
Lemma get_descendants (fields : list (string * JsValue)) :
  get_prop (JObj fields) "descendants" = Some (assoc "descendants" fields).
Proof.
  simpl. destruct (has_own "descendants" fields) eqn:E; [done|].
  by rewrite assoc_not_own.
Qed.

(** The shape the type [FoldingConfig | Array<FoldingConfig>] promises:
    no entry of the list, or of a [nested] list below it, is [null] or
    [undefined]. *)
Fixpoint rule_shaped (rule : JsValue) : bool :=
  let all := fix all (rules : list JsValue) : bool :=
    match rules with
    | [] => true
    | r :: rest => rule_shaped r && all rest
    end in
  match rule with
  | JUndefined | JNull => false
  | JArr items => all items
  | JObj fields =>
      (fix nested (fs : list (string * JsValue)) : bool :=
         match fs with
         | [] => true
         | (k, v) :: rest =>
             if String.eqb "nested" k then
               match v with JArr items => all items | _ => true end
             else nested rest
         end) fields
  | JBool _ | JNum _ | JStr _ | JFun _ => true
  end.

Lemma rule_shaped_array (items : list JsValue) :
  rule_shaped (JArr items) = forallb rule_shaped items.
Proof. simpl. induction items as [|r rest IH]; simpl; [done | by rewrite IH]. Qed.

Lemma rule_shaped_object (fields : list (string * JsValue)) :
  rule_shaped (JObj fields)
  = match assoc "nested" fields with
    | JArr items => forallb rule_shaped items
    | _ => true
    end.
Proof.
  cbn [rule_shaped]. induction fields as [|[k v] rest IH]; [done|].
  cbn [assoc]. destruct (String.eqb "nested" k); [|exact IH].
  destruct v; first [done | apply (rule_shaped_array items)].
Qed.

#[local] Arguments rule_shaped : simpl never.
#[local] Arguments checkDeprecatedRule : simpl never.

Definition flagged (deprecateds : list string) : bool :=
  includes "descendants" deprecateds.

Lemma flagged_push (d : list string) : flagged (push_descendants d) = true.
Proof.
  unfold flagged, push_descendants.
  destruct (includes "descendants" d) eqn:E; [done|].
  rewrite includes_app, E. reflexivity.
Qed.

Lemma push_descendants_cases (d : list string) :
  push_descendants d = d ∨ (flagged d = false ∧ push_descendants d = d ++ ["descendants"]).
Proof.
  unfold push_descendants, flagged.
  destruct (includes "descendants" d); [by left | by right].
Qed.

(** How one check may change [deprecateds]: not at all, or by pushing
    the one name it did not hold yet. *)
Definition grows (d d' : list string) : Prop :=
  d' = d ∨ (flagged d = false ∧ d' = d ++ ["descendants"]).

Lemma grows_refl d : grows d d.
Proof. by left. Qed.

Lemma grows_trans d1 d2 d3 : grows d1 d2 → grows d2 d3 → grows d1 d3.
Proof.
  intros [->|[Hf ->]] H23; [done|].
  destruct H23 as [->|[Hf' _]]; [by right|].
  unfold flagged in Hf'. rewrite includes_app in Hf'.
  by rewrite orb_true_r in Hf'.
Qed.

Definition declared_below (v : JsValue) : Prop :=
  ∃ rule, rule_of v rule ∧ declares_descendants rule = true.

(** What a successful check of [v] does. *)
Definition check_ok (v : JsValue) : Prop :=
  rule_shaped v = true → ∀ d, ∃ d',
    checkDeprecatedRule v d = Some d' ∧ grows d d' ∧
    (flagged d' = true ↔ flagged d = true ∨ declared_below v).

Lemma rule_of_array (items : list JsValue) (rule : JsValue) :
  rule_of (JArr items) rule ↔ ∃ x, x ∈ items ∧ rule_of x rule.
Proof.
  split.
  - inversion 1; subst; [done | eauto].
  - intros (x & Hx & Hr). by eapply rule_of_item.
Qed.

Lemma declared_below_array (items : list JsValue) :
  declared_below (JArr items) ↔ ∃ x, x ∈ items ∧ declared_below x.
Proof.
  unfold declared_below. split.
  - intros (r & Hr & Hd). apply rule_of_array in Hr as (x & Hx & Hr). eauto.
  - intros (x & Hx & r & Hr & Hd). exists r. split; [|done].
    apply rule_of_array. eauto.
Qed.

Lemma declared_below_primitive (v : JsValue) :
  get_prop v "descendants" = Some JUndefined → isArray v = false →
  (∀ fields, v ≠ JObj fields) → ¬ declared_below v.
Proof.
  intros Hget Harr Hobj (r & Hr & Hd).
  inversion Hr; subst; try done.
  - unfold declares_descendants in Hd. by rewrite Hget in Hd.
  - by eapply Hobj.
Qed.

Lemma check_ok_array (items : list JsValue) :
  Forall check_ok items → check_ok (JArr items).
Proof.
  intros Hall Hshape d.
  rewrite rule_shaped_array in Hshape.
  rewrite checkDeprecatedRule_array.
  setoid_rewrite declared_below_array.
  revert d. induction Hall as [|x rest Hx Hrest IH]; intros d.
  - exists d. split; [done|]. split; [apply grows_refl|].
    split; [by left|]. intros [?|(x & Hx & _)]; [done|]. by apply elem_of_nil in Hx.
  - simpl in Hshape. apply andb_true_iff in Hshape as [Hsx Hsr].
    destruct (Hx Hsx d) as (d1 & Hc1 & Hg1 & Hf1).
    destruct (IH Hsr d1) as (d2 & Hc2 & Hg2 & Hf2).
    exists d2. simpl. rewrite Hc1. split; [done|].
    split; [by eapply grows_trans|].
    rewrite Hf2, Hf1. split.
    + intros [[?|Hd]|(y & Hy & Hd)]; [by left| |].
      * right. exists x. split; [by left | done].
      * right. exists y. split; [by right | done].
    + intros [?|(y & Hy & Hd)]; [by left; left|].
      apply elem_of_cons in Hy as [->|Hy]; [by left; right|].
      right. eauto.
Qed.

Lemma Forall_assoc (P : JsValue → Prop) (k : string) (fields : list (string * JsValue)) :
  P JUndefined → Forall (λ kv, P kv.2) fields → P (assoc k fields).
Proof.
  intros Hu. induction 1 as [|[k' v] rest Hv _ IH]; simpl; [done|].
  by destruct (String.eqb k k').
Qed.

Lemma check_ok_all (v : JsValue) : check_ok v.
Proof.
  induction v as [ | | b | n | s | items IH | fields IH | name ] using JsValue_nested_ind.
  - intros Hs. done.
  - intros Hs. done.
  - intros _ d. exists d. split; [done|]. split; [apply grows_refl|].
    split; [by left|]. intros [?|Hd]; [done|].
    by apply declared_below_primitive in Hd.
  - intros _ d. exists d. split; [done|]. split; [apply grows_refl|].
    split; [by left|]. intros [?|Hd]; [done|].
    by apply declared_below_primitive in Hd.
  - intros _ d. exists d. split; [done|]. split; [apply grows_refl|].
    split; [by left|]. intros [?|Hd]; [done|].
    by apply declared_below_primitive in Hd.
  - by apply check_ok_array.
  - intros Hshape d.
    rewrite checkDeprecatedRule_object. rewrite rule_shaped_object in Hshape.
    destruct (truthy (assoc "descendants" fields)) eqn:Hdesc.
    + exists (push_descendants d). split; [done|].
      split; [apply push_descendants_cases|].
      rewrite flagged_push. split; [|done]. intros _. right.
      exists (JObj fields). split; [by constructor|].
      unfold declares_descendants. rewrite get_descendants. exact Hdesc.
    + assert (Hnested : check_ok (assoc "nested" fields)).
      { apply Forall_assoc; [|exact IH]. intros Hs. done. }
      assert (Hself : declares_descendants (JObj fields) = false)
        by (unfold declares_descendants; rewrite get_descendants; exact Hdesc).
      destruct (assoc "nested" fields) as [ | | | | | items | | ] eqn:Hn;
        try (exists d; split; [done|]; split; [apply grows_refl|];
             split; [by left|]; intros [?|(r & Hr & Hd)]; [done|];
             inversion Hr; subst; congruence).
      rewrite <- rule_shaped_array in Hshape.
      destruct (Hnested Hshape d) as (d' & Hc & Hg & Hf).
      rewrite checkDeprecatedRule_array in Hc.
      exists d'. split; [done|]. split; [done|].
      rewrite Hf. split.
      * intros [?|(r & Hr & Hd)]; [by left|]. right. exists r. split; [|done].
        apply rule_of_array in Hr as (x & Hx & Hr).
        by eapply rule_of_nested.
      * intros [?|(r & Hr & Hd)]; [by left|]. right. exists r. split; [|done].
        inversion Hr; subst; [congruence|].
        apply rule_of_array. rewrite Hn in *. simplify_eq. eauto.
  - intros _ d. exists d. split; [done|]. split; [apply grows_refl|].
    split; [by left|]. intros [?|Hd]; [done|].
    by apply declared_below_primitive in Hd.
Qed.

(** What a check of [v] that returns has done. *)
Definition check_sound (v : JsValue) : Prop :=
  ∀ d d', checkDeprecatedRule v d = Some d' →
    grows d d' ∧ (flagged d' = true ↔ flagged d = true ∨ declared_below v).

Lemma check_sound_array (items : list JsValue) :
  Forall check_sound items → check_sound (JArr items).
Proof.
  intros Hall d d'. rewrite checkDeprecatedRule_array.
  setoid_rewrite declared_below_array.
  revert d. induction Hall as [|x rest Hx Hrest IH]; intros d; simpl.
  - intros [= <-]. split; [apply grows_refl|].
    split; [by left|]. intros [?|(x & Hx & _)]; [done|]. by apply elem_of_nil in Hx.
  - destruct (checkDeprecatedRule x d) as [d1|] eqn:E1; [|done]. intros E2.
    destruct (Hx d d1 E1) as [Hg1 Hf1]. destruct (IH d1 E2) as [Hg2 Hf2].
    split; [by eapply grows_trans|].
    rewrite Hf2, Hf1. split.
    + intros [[?|Hd]|(y & Hy & Hd)]; [by left| |].
      * right. exists x. split; [by left | done].
      * right. exists y. split; [by right | done].
    + intros [?|(y & Hy & Hd)]; [by left; left|].
      apply elem_of_cons in Hy as [->|Hy]; [by left; right|].
      right. eauto.
Qed.

Lemma check_sound_primitive (v : JsValue) :
  get_prop v "descendants" = Some JUndefined → isArray v = false →
  (∀ fields, v ≠ JObj fields) →
  (∀ d, checkDeprecatedRule v d = Some d) → check_sound v.
Proof.
  intros Hget Harr Hobj Hcheck d d' H. rewrite Hcheck in H. injection H as <-.
  split; [apply grows_refl|]. split; [by left|].
  intros [?|Hd]; [done|]. by apply declared_below_primitive in Hd.
Qed.

Lemma check_sound_all (v : JsValue) : check_sound v.
Proof.
  induction v as [ | | b | n | s | items IH | fields IH | name ] using JsValue_nested_ind.
  - intros d d' H. discriminate H.
  - intros d d' H. discriminate H.
  - by apply check_sound_primitive.
  - by apply check_sound_primitive.
  - by apply check_sound_primitive.
  - by apply check_sound_array.
  - intros d d'. rewrite checkDeprecatedRule_object.
    destruct (truthy (assoc "descendants" fields)) eqn:Hdesc.
    + intros [= <-]. split; [apply push_descendants_cases|].
      rewrite flagged_push. split; [|done]. intros _. right.
      exists (JObj fields). split; [by constructor|].
      unfold declares_descendants. rewrite get_descendants. exact Hdesc.
    + assert (Hnested : check_sound (assoc "nested" fields)).
      { apply Forall_assoc; [|exact IH]. intros ? ? H. discriminate H. }
      assert (Hself : declares_descendants (JObj fields) = false)
        by (unfold declares_descendants; rewrite get_descendants; exact Hdesc).
      destruct (assoc "nested" fields) as [ | | | | | items | | ] eqn:Hn;
        try (intros [= <-]; split; [apply grows_refl|];
             split; [by left|]; intros [?|(r & Hr & Hd)]; [done|];
             inversion Hr; subst; congruence).
      intros H. rewrite <- checkDeprecatedRule_array in H.
      destruct (Hnested d d' H) as [Hg Hf].
      split; [done|]. rewrite Hf. split.
      * intros [?|(r & Hr & Hd)]; [by left|]. right. exists r. split; [|done].
        apply rule_of_array in Hr as (x & Hx & Hr).
        by eapply rule_of_nested.
      * intros [?|(r & Hr & Hd)]; [by left|]. right. exists r. split; [|done].
        inversion Hr; subst; [congruence|].
        apply rule_of_array. rewrite Hn in *. simplify_eq. eauto.
  - by apply check_sound_primitive.
Qed.

(** C7. One check of a rule list either ends in a TypeError before any
    message, which happens only when an entry of the list, or of a
    [nested] list below it, is [null] or [undefined]; or it returns, and
    then it has shown the [descendants] deprecation warning exactly once
    when some rule of the list, or of a [nested] list reachable from it,
    has a truthy [descendants], however many do, and has shown nothing
    otherwise. *)
Theorem checkDeprecatedRules_warns_once (rules : list JsValue) (h : Host) :
  (checkDeprecatedRules rules h = (h, Thrown "TypeError") ∧
   rule_shaped (JArr rules) = false)
  ∨
  ((declared_below (JArr rules) →
      checkDeprecatedRules rules h = showWarningMessage DESCENDANTS_WARNING h) ∧
   (¬ declared_below (JArr rules) → checkDeprecatedRules rules h = (h, Returned ())) ∧
   ∃ h', checkDeprecatedRules rules h = (h', Returned ()) ∧
     (h_warnings h' = h_warnings h ∨
      h_warnings h' = h_warnings h ++ [DESCENDANTS_WARNING])).
Proof.
  unfold checkDeprecatedRules.
  destruct (checkDeprecatedRule (JArr rules) []) as [d|] eqn:E.
  - right. destruct (check_sound_all (JArr rules) [] d E) as [_ Hf].
    fold (flagged d). destruct (flagged d) eqn:Hfd.
    + split; [done|]. split.
      * intros Hno. destruct Hf as [Hf _]. destruct (Hf eq_refl) as [?|?]; done.
      * eexists. split; [reflexivity|]. by right.
    + split; [|split].
      * intros Hd. destruct Hf as [_ Hf].
        exfalso. enough (false = true) by done. apply Hf. by right.
      * done.
      * exists h. split; [done|]. by left.
  - left. split; [done|].
    destruct (rule_shaped (JArr rules)) eqn:Hshape; [|done].
    destruct (check_ok_all (JArr rules) Hshape []) as (d & Hd & _). congruence.
Qed.

(** *** Running the glue: what each function leaves untouched *)

(** [quiet h h']: between [h] and [h'] nothing was registered, scheduled
    or recorded in [providers], and [setup] was not entered. Messages,
    commands, [globalState], [$documents] and [$channel] may differ. *)
Definition quiet (h h' : Host) : Prop :=
  h_disposable h' = h_disposable h ∧ h_providers h' = h_providers h ∧
  h_timers h' = h_timers h ∧ h_setup_calls h' = h_setup_calls h.

Lemma quiet_refl h : quiet h h.
Proof. by repeat split. Qed.

Lemma quiet_trans h1 h2 h3 : quiet h1 h2 → quiet h2 h3 → quiet h1 h3.
Proof.
  intros (?&?&?&?) (?&?&?&?). repeat split; etrans; eauto.
Qed.

(** A computation that always returns and is quiet. *)
Definition calm {A} (m : M A) : Prop :=
  ∀ h, ∃ h' a, m h = (h', Returned a) ∧ quiet h h'.

Lemma calm_ret {A} (a : A) : calm (mret a).
Proof. intros h. exists h, a. split; [done | apply quiet_refl]. Qed.

Lemma calm_bind {A B} (m : M A) (k : A → M B) :
  calm m → (∀ a, calm (k a)) → calm (m ≫= k).
Proof.
  intros Hm Hk h. destruct (Hm h) as (h1 & a & E1 & Q1).
  destruct (Hk a h1) as (h2 & b & E2 & Q2).
  exists h2, b. unfold mbind, M_bind. rewrite E1. split; [done|].
  by eapply quiet_trans.
Qed.

Lemma calm_for_of {A} (xs : list A) (body : A → M unit) :
  (∀ x, calm (body x)) → calm (for_of xs body).
Proof.
  intros Hbody. induction xs as [|x rest IH]; simpl.
  - apply calm_ret.
  - apply calm_bind; [apply Hbody | intros _; exact IH].
Qed.

Lemma calm_showWarningMessage msg : calm (showWarningMessage msg).
Proof. intros h. eexists _, (). split; [reflexivity | by repeat split]. Qed.

Lemma calm_showErrorMessage msg : calm (showErrorMessage msg).
Proof. intros h. eexists _, (). split; [reflexivity | by repeat split]. Qed.

Lemma calm_executeCommand cmd : calm (executeCommand cmd).
Proof. intros h. eexists _, (). split; [reflexivity | by repeat split]. Qed.

Lemma calm_globalState_update key value : calm (globalState_update key value).
Proof. intros h. eexists _, (). split; [reflexivity | by repeat split]. Qed.

Lemma calm_globalState_get key : calm (globalState_get key).
Proof. intros h. eexists _, _. split; [reflexivity | by repeat split]. Qed.

Lemma calm_documents_push document : calm (documents_push document).
Proof. intros h. eexists _, (). split; [reflexivity | by repeat split]. Qed.

Lemma calm_documents_includes document : calm (documents_includes document).
Proof. intros h. eexists _, _. split; [reflexivity | by repeat split]. Qed.

Lemma calm_channel_get : calm channel_get.
Proof. intros h. eexists _, _. split; [reflexivity | by repeat split]. Qed.

Lemma calm_channel_set c : calm (channel_set c).
Proof. intros h. eexists _, (). split; [reflexivity | by repeat split]. Qed.

Create HintDb calm.
#[export] Hint Resolve calm_ret calm_showWarningMessage calm_showErrorMessage
  calm_executeCommand calm_globalState_update calm_globalState_get
  calm_documents_push calm_documents_includes calm_channel_get
  calm_channel_set : calm.

Ltac calm_step :=
  first [ apply calm_bind; [|intros ?]
        | apply calm_for_of; intros ?
        | solve [auto with calm]
        | match goal with
          | |- calm (if ?b then _ else _) => destruct b
          | |- calm (match ?x with _ => _ end) => destruct x
          end ].

Ltac calm_all := repeat calm_step.

Lemma calm_foldDocument env document : calm (foldDocument env document).
Proof. unfold foldDocument. calm_all. Qed.

Lemma calm_getDelay config : calm (getDelay config).
Proof. unfold getDelay. calm_all. Qed.

Lemma calm_getDebugChannel debug : calm (getDebugChannel debug).
Proof. unfold getDebugChannel. calm_all. Qed.

Lemma calm_getRules env : calm (getRules env).
Proof. unfold getRules. calm_all. Qed.

#[export] Hint Resolve calm_foldDocument calm_getDelay calm_getDebugChannel
  calm_getRules : calm.

(** The configuration [getRules] hands back. *)
Definition rules_section (env : Env) : WorkspaceConfiguration :=
  if (4 <? length (wc_keys (getConfiguration env "folding" None)))%nat
     && negb (date_gt (now env) JULY_1_2022)
  then getConfiguration env "folding" None
  else getConfiguration env "explicitFolding.rules" None.

Lemma getRules_value env h : (getRules env h).2 = Returned (rules_section env).
Proof.
  unfold getRules, rules_section.
  destruct (4 <? _)%nat; simpl; [|done].
  unfold mbind, M_bind, globalState_get at 1.
  destruct (date_gt (now env) JULY_1_2022); simpl; [done|].
  destruct (h_globalState h !! DEPRECATED_KEY) as [last|]; simpl; [|done].
  by destruct (_ || _).
Qed.

Lemma getRules_run env h :
  ∃ h', getRules env h = (h', Returned (rules_section env)) ∧ quiet h h'.
Proof.
  destruct (calm_getRules env h) as (h' & a & E & Q).
  exists h'. split; [|done].
  pose proof (getRules_value env h) as Hv. rewrite E in Hv. simpl in Hv.
  by rewrite E, Hv.
Qed.

(** [!langRules || langRules[language]] as a value. *)
Definition by_language_key (env : Env) (langRules : JsValue) (language : string)
    : bool :=
  negb (truthy langRules) || truthy (member env langRules language).

Lemma use_language_key_run env langRules language h :
  use_language_key env langRules language h
  = (h, Returned (by_language_key env langRules language)).
Proof.
  unfold use_language_key, by_language_key, read_prop.
  destruct (truthy langRules) eqn:Ht; simpl; [|done].
  destruct langRules; simpl in *; done.
Qed.

(** The array [setup] builds and hands to [new FoldingProvider]. *)
Definition language_rules (env : Env) (document : TextDocument) : JsValue :=
  let perLanguages := rules_section env in
  let langRules :=
    wc_get (getConfiguration env "explicitFolding" (Some document)) "rules" in
  if by_language_key env langRules (languageId document)
  then wc_prop perLanguages (languageId document)
  else langRules.

Definition wildcard_rules (env : Env) : JsValue :=
  wc_prop (rules_section env) "*".

Definition setup_rules (env : Env) (document : TextDocument) : list JsValue :=
  let language := languageId document in
  let perLanguages := rules_section env in
  let rules : list JsValue := [] in
  let langRules :=
    wc_get (getConfiguration env "explicitFolding" (Some document)) "rules" in
  let rules :=
    if by_language_key env langRules language
    then applyRules (wc_prop perLanguages language) rules
    else applyRules langRules rules in
  applyRules (wc_prop perLanguages "*") rules.

Lemma setup_rules_concat env document :
  setup_rules env document
  = applyRules (language_rules env document) [] ++ applyRules (wildcard_rules env) [].
Proof.
  unfold setup_rules, language_rules, wildcard_rules. cbv zeta.
  rewrite applyRules_app. by destruct (by_language_key _ _ _).
Qed.

Lemma bind_returned {A B} (m : M A) (k : A → M B) h h1 a :
  m h = (h1, Returned a) → (m ≫= k) h = k a h1.
Proof. intros E. unfold mbind, M_bind. by rewrite E. Qed.

Lemma bind_thrown {A B} (m : M A) (k : A → M B) h h1 e :
  m h = (h1, Thrown e) → (m ≫= k) h = (h1, Thrown e).
Proof. intros E. unfold mbind, M_bind. by rewrite E. Qed.

Lemma checkDeprecatedRules_run rules h :
  ∃ h', quiet h h' ∧
    checkDeprecatedRules rules h
    = (h', match checkDeprecatedRule (JArr rules) [] with
           | Some _ => Returned ()
           | None => Thrown "TypeError"
           end).
Proof.
  unfold checkDeprecatedRules.
  destruct (checkDeprecatedRule (JArr rules) []) as [d|].
  - destruct (includes "descendants" d).
    + destruct (calm_showWarningMessage DESCENDANTS_WARNING h) as (h' & [] & E & Q).
      exists h'. by rewrite E.
    + exists h. split; [apply quiet_refl | done].
  - exists h. split; [apply quiet_refl | done].
Qed.


Lemma register_schemes_run language provider schemes h :
  ∃ h', for_of schemes (λ scheme, registerFoldingRangeProvider language scheme provider) h
        = (h', Returned ()) ∧
    h_disposable h'
    = h_disposable h ++ map (λ scheme, mkRegistration language scheme provider) schemes ∧
    h_providers h' = h_providers h ∧ h_timers h' = h_timers h ∧
    h_setup_calls h' = h_setup_calls h.
Proof.
  revert h. induction schemes as [|s rest IH]; intros h; simpl.
  - exists h. by rewrite app_nil_r.
  - unfold mbind, M_bind, registerFoldingRangeProvider at 1.
    match goal with |- context [for_of rest _ ?h0] =>
      destruct (IH h0) as (h' & E & Hd & Hp & Ht & Hs) end.
    exists h'. rewrite E. split; [done|]. simpl in *.
    rewrite Hd, <- app_assoc. done.
Qed.

(** What one run of [setup] does to the registry. *)
Lemma setup_run env document h :
  let rules := setup_rules env document in
  let language := languageId document in
  ∃ h' o, setup env document h = (h', o) ∧
    h_providers h' = h_providers h ∧ h_timers h' = h_timers h ∧
    h_setup_calls h' = h_setup_calls h ++ [language] ∧
    match checkDeprecatedRule (JArr rules) [] with
    | Some _ =>
        o = Returned () ∧
        ∃ channel, h_disposable h' = h_disposable h ++
          map (λ scheme, mkRegistration language scheme (mkFoldingProvider rules channel))
              SCHEMES
    | None => o = Thrown "TypeError" ∧ h_disposable h' = h_disposable h
    end.
Proof.
  intros rules language. unfold setup.
  rewrite (bind_returned _ _ h _ () eq_refl).
  match goal with |- context [mbind _ (getRules env) ?h0] =>
    destruct (getRules_run env h0) as (h1 & E1 & Q1) end.
  rewrite (bind_returned _ _ _ _ _ E1).
  rewrite (bind_returned _ _ _ _ _ (use_language_key_run _ _ _ _)).
  cbv zeta.
  match goal with |- context [checkDeprecatedRules ?rs] =>
    change rs with rules;
    destruct (checkDeprecatedRules_run rules h1) as (h2 & Q2 & E2) end.
  destruct Q1 as (D1 & P1 & T1 & S1). destruct Q2 as (D2 & P2 & T2 & S2).
  simpl in D1, P1, T1, S1.
  destruct (checkDeprecatedRule (JArr rules) []) as [d|].
  - rewrite (bind_returned _ _ _ _ _ E2).
    match goal with |- context [getDebugChannel ?b] =>
      destruct (calm_getDebugChannel b h2) as (h3 & channel & E3 & D3 & P3 & T3 & S3) end.
    rewrite (bind_returned _ _ _ _ _ E3).
    destruct (register_schemes_run (languageId document)
                (mkFoldingProvider rules channel) SCHEMES h3)
      as (h4 & E4 & D4 & P4 & T4 & S4).
    rewrite (bind_returned _ _ _ _ _ E4).
    destruct (calm_foldDocument env document h4) as (h5 & [] & E5 & D5 & P5 & T5 & S5).
    exists h5, (Returned ()). split; [done|].
    split; [by rewrite P5, P4, P3, P2, P1|].
    split; [by rewrite T5, T4, T3, T2, T1|].
    split; [by rewrite S5, S4, S3, S2, S1|].
    split; [done|]. exists channel. by rewrite D5, D4, D3, D2, D1.
  - rewrite (bind_thrown _ _ _ _ _ E2).
    exists h2, (Thrown "TypeError"). split; [done|].
    split; [by rewrite P2, P1|]. split; [by rewrite T2, T1|].
    split; [by rewrite S2, S1|].
    split; [done|]. by rewrite D2, D1.
Qed.

(** *** The rule set handed to the folding provider *)

(** Every provider that [setup] registers for a document carries the
    per-language data of the document, normalized,
    followed by the normalized ["*"] entry of the rules section. The
    per-language data is the language's entry of the rules section when
    the document-scoped [explicitFolding.rules] value is missing or falsy
    or has a truthy entry for the language, and is that document-scoped
    value itself otherwise. Each rule of the per-language part sits at its
    own index and each wildcard rule after all of them. A run that
    returns registers one such provider per scheme. *)
Theorem setup_rules_language_before_wildcard (env : Env) (document : TextDocument)
    (h : Host) :
  let own := applyRules (language_rules env document) [] in
  let wild := applyRules (wildcard_rules env) [] in
  ∃ h' o registered,
    setup env document h = (h', o) ∧
    h_disposable h' = h_disposable h ++ registered ∧
    Forall (λ r, reg_language r = languageId document ∧
                 fp_rules (reg_provider r) = own ++ wild) registered ∧
    (o = Returned () → map reg_scheme registered = SCHEMES) ∧
    (∀ i rule, own !! i = Some rule → (own ++ wild) !! i = Some rule) ∧
    (∀ j rule, wild !! j = Some rule → (own ++ wild) !! (length own + j) = Some rule).
Proof.
  intros own wild.
  destruct (setup_run env document h) as (h' & o & E & _ & _ & _ & Hcheck).
  rewrite setup_rules_concat in Hcheck. fold own wild in Hcheck.
  assert (Hpos : (∀ i rule, own !! i = Some rule → (own ++ wild) !! i = Some rule) ∧
    (∀ j rule, wild !! j = Some rule → (own ++ wild) !! (length own + j) = Some rule)).
  { split.
    - intros i rule Hi. by apply lookup_app_l_Some.
    - intros j rule Hj. by rewrite lookup_app_r, Nat.add_sub' by lia. }
  destruct (checkDeprecatedRule (JArr (own ++ wild)) []) as [d|].
  - destruct Hcheck as (-> & channel & Hd).
    eexists h', (Returned ()), _. split; [done|]. split; [exact Hd|].
    split; [|split; [|exact Hpos]].
    + apply Forall_forall. intros r Hr. apply list_elem_of_fmap in Hr as (s & -> & _).
      done.
    + intros _. reflexivity.
  - destruct Hcheck as (-> & Hd).
    exists h', (Thrown "TypeError"), []. rewrite app_nil_r.
    split; [done|]. split; [done|]. split; [constructor|]. split; [done|exact Hpos].
Qed.

(** *** MainProvider.provideFoldingRanges *)

(** How often [setup] was triggered for a language so far: entered, or
    waiting in a timer that is still pending. *)
Definition triggered (language : string) (h : Host) : nat :=
  length (filter (λ l, l = language) (h_setup_calls h))
  + length (filter (λ t, languageId t.2 = language) (h_timers h)).

(** The value [getDelay] returns. *)
Definition delay_of (config : WorkspaceConfiguration) : JsValue :=
  if wc_has config "startupDelay" then js_or (wc_get config "startupDelay") (JNum 0)
  else js_or (wc_get config "delay") (JNum 0).

Lemma getDelay_value config h : (getDelay config h).2 = Returned (delay_of config).
Proof. unfold getDelay, delay_of. by destruct (wc_has config "startupDelay"). Qed.

Lemma registered_marked language h h' :
  h_providers h' = <[language := true]> (h_providers h) →
  registered language h' = true.
Proof.
  intros E. unfold registered. rewrite E, lookup_insert_eq.
  by destruct (String.eqb language "__proto__").
Qed.

Lemma registered_other l language h h' :
  h_providers h' = <[language := true]> (h_providers h) → l ≠ language →
  registered l h' = registered l h.
Proof. intros E Hl. unfold registered. by rewrite E, lookup_insert_ne. Qed.


Lemma triggered_timer l h h' delay document :
  h_setup_calls h' = h_setup_calls h →
  h_timers h' = h_timers h ++ [(delay, document)] →
  triggered l h'
  = triggered l h + (if bool_decide (l = languageId document) then 1 else 0).
Proof.
  intros Hs Ht. unfold triggered. rewrite Hs, Ht, filter_app, length_app.
  rewrite filter_cons, filter_nil. simpl.
  case_bool_decide; case_decide; simpl; congruence || lia.
Qed.

Lemma triggered_setup l h h' language :
  h_setup_calls h' = h_setup_calls h ++ [language] →
  h_timers h' = h_timers h →
  triggered l h' = triggered l h + (if bool_decide (l = language) then 1 else 0).
Proof.
  intros Hs Ht. unfold triggered. rewrite Hs, Ht, filter_app, length_app.
  rewrite filter_cons, filter_nil.
  case_bool_decide; case_decide; simpl; congruence || lia.
Qed.


(** One call: the language is marked afterwards, no other mark changes,
    [setup] is triggered exactly when the language was not marked
    before, and the call throws exactly when it then runs [setup] at
    once and the deprecation check fails. *)
Lemma provideFoldingRanges_run env document h :
  let language := languageId document in
  let delay := delay_of (getConfiguration env "explicitFolding" (Some document)) in
  ∃ h' o, provideFoldingRanges env document h = (h', o) ∧
    registered language h' = true ∧
    (∀ l, l ≠ language → registered l h' = registered l h) ∧
    (∀ l, triggered l h'
          = triggered l h
            + (if registered language h then 0
               else if bool_decide (l = language) then 1 else 0)) ∧
    o = (if registered language h then Returned []
         else if gt_zero env delay then Returned []
         else match checkDeprecatedRule (JArr (setup_rules env document)) [] with
              | Some _ => Returned []
              | None => Thrown "TypeError"
              end).
Proof.
  intros language delay. unfold provideFoldingRanges.
  rewrite (bind_returned _ _ h h (registered language h) eq_refl).
  destruct (registered language h) eqn:Hreg; simpl.
  - exists h, (Returned []). split; [done|]. split; [done|]. split; [done|].
    split; [intros l; lia | done].
  - unfold mbind, M_bind. simpl.
    match goal with |- context [getDelay ?c ?h0] =>
      destruct (calm_getDelay c h0) as (h1 & d & E1 & D1 & P1 & T1 & S1);
      pose proof (getDelay_value c h0) as Hv;
      rewrite E1 in Hv; injection Hv as ->; rewrite E1 end.
    fold delay. simpl in D1, P1, T1, S1.
    destruct (gt_zero env delay).
    + simpl. eexists _, (Returned []). split; [reflexivity|].
      split; [by apply (registered_marked language h)|].
      split; [intros l Hl; by apply (registered_other l language h)|].
      split; [|done]. intros l.
      by rewrite (triggered_timer l h _ delay document) by (simpl; congruence).
    + destruct (setup_run env document h1) as (h2 & o & E2 & P2 & T2 & S2 & Hcheck).
      rewrite E2.
      assert (Hp : h_providers h2 = <[language := true]> (h_providers h))
        by (by rewrite P2, P1).
      assert (Htrig : ∀ l, triggered l h2
                = triggered l h + (if bool_decide (l = language) then 1 else 0)).
      { intros l. apply triggered_setup; [by rewrite S2, S1 | by rewrite T2, T1]. }
      destruct (checkDeprecatedRule (JArr (setup_rules env document)) []) as [d|].
      * destruct Hcheck as [-> _].
        exists h2, (Returned []). split; [done|].
        split; [by apply (registered_marked language h)|].
        split; [intros l Hl; by apply (registered_other l language h)|]. done.
      * destruct Hcheck as [-> _].
        exists h2, (Thrown "TypeError"). split; [done|].
        split; [by apply (registered_marked language h)|].
        split; [intros l Hl; by apply (registered_other l language h)|]. done.
Qed.





(** *** Worked configurations *)

Definition no_settings : WorkspaceConfiguration :=
  mkConfiguration ["has"; "get"; "update"; "inspect"] ∅.

Definition brace_rule : JsValue := JObj [("begin", JStr "{"); ("end", JStr "}")].
Definition region_rule : JsValue :=
  JObj [("beginRegex", JStr "#region"); ("endRegex", JStr "#endregion")].
Definition legacy_rule : JsValue :=
  JObj [("begin", JStr "/*"); ("end", JStr "*/");
        ("nested", JArr [JObj [("begin", JStr "<"); ("descendants", JBool true)];
                         JObj [("begin", JStr "["); ("descendants", JBool true)]])].

(** [explicitFolding.rules] with an entry for python and a wildcard. *)
Definition rules_by_language : WorkspaceConfiguration :=
  mkConfiguration ["has"; "get"; "update"; "inspect"; "python"; "*"]
    (<["python" := JArr [brace_rule]]> (<["*" := region_rule]> ∅)).

(** [explicitFolding] as a document sees it. *)
Definition explicit_folding (rules : JsValue) : WorkspaceConfiguration :=
  mkConfiguration ["has"; "get"; "update"; "inspect"; "rules"]
    (<["rules" := rules]> ∅).

Definition workspace (section : string) (scope : option TextDocument)
    : WorkspaceConfiguration :=
  if String.eqb section "explicitFolding.rules" then rules_by_language
  else if String.eqb section "explicitFolding" then
    explicit_folding (JObj [("python", JArr [brace_rule]); ("*", region_rule)])
  else no_settings.

(** The built-in prototypes as far as the examples go: none of the names
    they read ([python], [ruby]) is a member of any. *)
Definition no_builtin (v : JsValue) (k : string) : JsValue := JUndefined.

Definition example_env (today : Date) : Env :=
  mkEnv workspace today (λ _, None) (λ _, None) no_builtin.

Definition python_file : TextDocument := mkDocument 1 "file:///a.py" "python".
Definition ruby_file : TextDocument := mkDocument 2 "file:///b.rb" "ruby".

(** A python document gets its own rules first, then the wildcard rule,
    on each of the three schemes. *)
Example setup_python :
  map (λ reg, (reg_scheme reg, fp_rules (reg_provider reg)))
      (h_disposable (setup (example_env (mkDate 2024 0 15 0)) python_file empty_host).1)
  = [("file", [brace_rule; region_rule]);
     ("untitled", [brace_rule; region_rule]);
     ("vscode-userdata", [brace_rule; region_rule])].
Proof. vm_compute. reflexivity. Qed.

(** Two calls for python and one for ruby: every call returns the empty
    array and [setup] runs once per language. *)
Example provide_twice :
  let env := example_env (mkDate 2024 0 15 0) in
  let '(h, outcomes) :=
    run_events [Call env python_file; Call env ruby_file; Call env python_file]
               empty_host in
  outcomes = [Returned []; Returned []; Returned []]
  ∧ h_setup_calls h = ["python"; "ruby"].
Proof. vm_compute. done. Qed.

(** A language named like a method of [Object.prototype] counts as known
    from the start: the call returns the empty array and [setup] is never
    run for it. *)
Example provide_inherited_name :
  provideFoldingRanges (example_env (mkDate 2024 0 15 0))
    (mkDocument 4 "file:///c" "constructor") empty_host
  = (empty_host, Returned []).
Proof. reflexivity. Qed.

(** [startupDelay] wins over [delay] and brings the warning; a delay of 0
    and a missing delay both give 0. *)
Example getDelay_deprecated_key :
  getDelay (mkConfiguration [] (<["startupDelay" := JNum 500]> (<["delay" := JNum 20]> ∅)))
           empty_host
  = ((showWarningMessage STARTUP_DELAY_WARNING empty_host).1, Returned (JNum 500)).
Proof. reflexivity. Qed.

Example getDelay_current_key :
  getDelay (mkConfiguration [] (<["delay" := JNum 20]> ∅)) empty_host
  = (empty_host, Returned (JNum 20)).
Proof. reflexivity. Qed.

Example getDelay_missing :
  getDelay no_settings empty_host = (empty_host, Returned (JNum 0)).
Proof. reflexivity. Qed.

(** At noon on July 1, 2022 the deprecated section is already refused;
    at midnight, at the start of that day, it is still returned. *)
Definition legacy_folding : WorkspaceConfiguration :=
  mkConfiguration ["has"; "get"; "update"; "inspect"; "python"]
    (<["python" := brace_rule]> ∅).

Definition legacy_env (today : Date) : Env :=
  mkEnv (λ section _, if String.eqb section "folding" then legacy_folding
                      else rules_by_language)
        today (λ _, None) (λ _, None) no_builtin.

Example getRules_july_first_noon :
  getRules (legacy_env (mkDate 2022 6 1 43200000)) empty_host
  = ((showErrorMessage FOLDING_UNSUPPORTED_ERROR empty_host).1,
     Returned rules_by_language).
Proof. reflexivity. Qed.

Example getRules_july_first_midnight :
  (getRules (legacy_env (mkDate 2022 6 1 0)) empty_host).2 = Returned legacy_folding.
Proof. reflexivity. Qed.

Lemma checkDeprecatedRules_warns_once_witness :
  checkDeprecatedRules [legacy_rule; brace_rule] empty_host
  = showWarningMessage DESCENDANTS_WARNING empty_host.
Proof.
  destruct (checkDeprecatedRules_warns_once [legacy_rule; brace_rule] empty_host)
    as [[_ Hshape]|[Hwarn _]]; [discriminate Hshape|].
  apply Hwarn.
  exists (JObj [("begin", JStr "["); ("descendants", JBool true)]).
  split; [|reflexivity].
  eapply rule_of_item; [left|].
  eapply rule_of_nested; [reflexivity | right; left |].
  by constructor.
Defined.

(** A rule list with a rule that declares [descendants] and a [null]
    after it: the check reaches the [null] and throws, so that no
    warning is shown although a rule of the list declares the field. *)
Lemma checkDeprecatedRules_null_entry :
  let rules := [JObj [("begin", JStr "{"); ("descendants", JBool true)]; JNull] in
  declared_below (JArr rules) ∧
  checkDeprecatedRules rules empty_host = (empty_host, Thrown "TypeError") ∧
  ¬ (h_warnings (checkDeprecatedRules rules empty_host).1 ≠ []
     ↔ declared_below (JArr rules)).
Proof.
  intros rules.
  assert (Hd : declared_below (JArr rules)).
  { exists (JObj [("begin", JStr "{"); ("descendants", JBool true)]).
    split; [|reflexivity]. eapply rule_of_item; [left|]. by constructor. }
  split; [exact Hd|]. split; [reflexivity|].
  intros [_ Hwarn]. by apply (Hwarn Hd).
Qed.

(** Settings whose python rules hold a [null]. *)
Definition broken_env : Env :=
  mkEnv (λ section _,
           if String.eqb section "explicitFolding.rules"
           then mkConfiguration [] (<["python" := JArr [brace_rule; JNull]]> ∅)
           else no_settings)
        (mkDate 2024 0 15 0) (λ _, None) (λ _, None) no_builtin.


(** The same rules section where the document-scoped [explicitFolding]
    settings hold no [rules] value. *)
Definition unscoped_env (today : Date) : Env :=
  mkEnv (λ section _, if String.eqb section "explicitFolding.rules"
                      then rules_by_language else no_settings)
        today (λ _, None) (λ _, None) no_builtin.

(** C1, where the code departs from it. With rules for python and a
    wildcard rule, a ruby document: neither the rules section nor the
    document-scoped value has an entry for ruby, and the guard of
    [setup] sends the document-scoped value, the whole per-language
    object, to [applyRules] as the rules of the language. The providers
    registered for ruby then carry that object in front of the wildcard
    rule, which is not the ruby entry of the rules section (there is
    none) followed by the wildcard rules. On the other side of the
    guard, without a document-scoped value, the same document under the
    same rules section gets the wildcard rule alone. *)
Lemma setup_unlisted_language :
  let env := example_env (mkDate 2024 0 15 0) in
  let section := getConfiguration env "explicitFolding.rules" None in
  let registered_rules (e : Env) :=
    map (λ reg, fp_rules (reg_provider reg))
        (h_disposable (setup e ruby_file empty_host).1) in
  let claimed := applyRules (wc_prop section "ruby") [] ++ applyRules (wc_prop section "*") [] in
  claimed = [region_rule] ∧
  registered_rules env
  = replicate 3 [JObj [("python", JArr [brace_rule]); ("*", region_rule)]; region_rule] ∧
  ¬ Forall (λ rules, rules = claimed) (registered_rules env) ∧
  registered_rules (unscoped_env (mkDate 2024 0 15 0)) = replicate 3 claimed.
Proof.
  vm_compute. split; [reflexivity|]. split; [reflexivity|]. split; [|reflexivity].
  intros H. inversion H as [|? ? Heq _]. discriminate Heq.
Qed.
(** A document whose language is named like a method of the
    configuration object: [perLanguages[language]] is that method, which
    [applyRules] pushes as a rule of the language. *)
Example setup_language_named_get :
  map (λ reg, fp_rules (reg_provider reg))
      (h_disposable (setup (unscoped_env (mkDate 2024 0 15 0))
                           (mkDocument 6 "file:///d" "get") empty_host).1)
  = replicate 3 [JFun "get"; region_rule].
Proof. vm_compute. reflexivity. Qed.
End Extension.

(** ** The folding engine

    [FoldingProvider] (the module [./foldingProvider] imported by
    [extension.ts]) is the rule-driven range-matching engine: Rule Model,
    Rule Compiler, Matching Engine and Range Assembler. *)

Module Engine.
Import Vscode.

Inductive RuleKind := begin_end | single_pattern | consecutive | indentation.

#[global] Instance RuleKind_eq_dec : EqDecision RuleKind.
Proof. solve_decision. Defined.

(** Modelled from the spec: the rule objects of the configuration format
    that the Rule Compiler of [./foldingProvider] consumes (its source is
    not part of [src/]). One rule object carries the attributes of the
    Rule of the data model, patterns still as text: a begin/end pair, or a
    single pattern with the capture groups [begin] and [end], or one of
    the markers [off_side] and [consecutive]; the deprecated boolean
    [descendants]; child rules. *)
Inductive RawRule : Type := mkRawRule {
  raw_begin : option string;
  raw_end : option string;
  raw_single : option string;
  raw_off_side : bool;
  raw_consecutive : bool;
  raw_descendants : bool;
  raw_nested : list RawRule;
  raw_strict : bool;
  raw_fold_last_line : bool;
  raw_fold_end_pattern : bool;
  raw_comment : bool
}.

(** Which part of a match is asked for: the whole match, or one of the
    two named capture groups of a single pattern. *)
Inductive Group := WholeMatch | BeginGroup | EndGroup.

(** Columns of a match on one line and the text of its capture groups. *)
Record Match := mkMatch {
  m_start : nat;
  m_end : nat;
  m_groups : list string
}.

(** Modelled from the spec: the diagnostics sink of the engine's boundary,
    [onDeprecatedField(name)] and [onInvalidRule(rule, reason)]. *)
Inductive Diagnostic :=
  | onDeprecatedField (name : string)
  | onInvalidRule (rule : RawRule) (reason : string).

Definition is_blank (c : Ascii.ascii) : bool :=
  let n := Ascii.nat_of_ascii c in ((n =? 32) || (n =? 9))%nat.

(** Leading-whitespace width of a line. *)
Fixpoint indent_width (line : string) : nat :=
  match line with
  | EmptyString => 0
  | String c rest => if is_blank c then S (indent_width rest) else 0
  end.

Fixpoint all_blank (s : string) : bool :=
  match s with
  | EmptyString => true
  | String c rest => is_blank c && all_blank rest
  end.

(** Only whitespace lies between columns [from] and [to] of [line]. *)
Definition only_whitespace (line : string) (from to : nat) : bool :=
  all_blank (String.substring from (to - from) line).

Lemma Forall_filter_keep {A} (P : A → Prop) (Q : A → Prop) `{∀ x, Decision (Q x)}
    (l : list A) :
  Forall P l → Forall P (filter Q l).
Proof.
  rewrite !Forall_forall. intros Hl x Hx.
  apply list_elem_of_filter in Hx as [_ Hx]. by apply Hl.
Qed.

Section WithRegex.

(** The regular-expression engine the rules are written for. Compiling a
    pattern fails ([None]) on a malformed one. [regex_exec re group
    captured line from] searches [line], and only that line, from column
    [from]; [captured] are the groups of the begin match an end pattern
    may refer back to. *)
Context {Regex : Type}.
Variable regex_compile : string → option Regex.
Variable regex_exec : Regex → Group → list string → string → nat → option Match.

(** Modelled from the spec: the Rule of the data model once compiled by
    [./foldingProvider] (not part of [src/]): identity, kind, compiled
    patterns (a single pattern stands in for both), ordered child rules
    and the flags [strict], [fold_last_line], [fold_end_pattern] and the
    comment flag that decides the range kind. *)
Inductive Rule : Type := mkRule {
  id : nat;
  kind : RuleKind;
  begin_pattern : option Regex;
  end_pattern : option Regex;
  nested_rules : list Rule;
  strict : bool;
  fold_last_line : bool;
  fold_end_pattern : bool;
  comment : bool
}.

(** *** Rule Compiler *)

(** Modelled from the spec: the kind a rule object declares. A rule with
    neither a begin/end pair nor a single pattern nor one of the markers
    is a ConfigError. *)
Definition declared_kind (raw : RawRule) : option RuleKind :=
  if raw_off_side raw then Some indentation
  else if raw_consecutive raw then
    (if raw_begin raw is Some _ then Some consecutive else None)
  else if raw_single raw is Some _ then Some single_pattern
  else match raw_begin raw, raw_end raw with
       | Some _, Some _ => Some begin_end
       | _, _ => None
       end.

(** Compiling one optional pattern: [None] is a PatternError. *)
Definition compile_pattern (p : option string) : option (option Regex) :=
  match p with
  | None => Some None
  | Some text =>
      match regex_compile text with
      | Some re => Some (Some re)
      | None => None
      end
  end.

(** Modelled from the spec: the patterns of one rule, compiled. The
    result is the reason the rule is dropped, or its kind with the begin
    and end patterns. *)
Definition compile_patterns (raw : RawRule)
    : string + (RuleKind * option Regex * option Regex) :=
  match declared_kind raw with
  | None => inl "ConfigError"
  | Some indentation => inr (indentation, None, None)
  | Some consecutive =>
      match compile_pattern (raw_begin raw) with
      | Some b => inr (consecutive, b, None)
      | None => inl "PatternError"
      end
  | Some single_pattern =>
      match compile_pattern (raw_single raw) with
      | Some p => inr (single_pattern, p, p)
      | None => inl "PatternError"
      end
  | Some begin_end =>
      match compile_pattern (raw_begin raw), compile_pattern (raw_end raw) with
      | Some b, Some e => inr (begin_end, b, e)
      | _, _ => inl "PatternError"
      end
  end.

(** Modelled from the spec: the Rule Compiler of [./foldingProvider].
    Rules are taken in order; a malformed rule (ConfigError or
    PatternError) is dropped and reported, alone, and the others are
    kept; identities are handed out from [next] in document order. The
    result is the compiled rules, the next free identity and the
    reports. *)
Fixpoint compile_rule (raw : RawRule) (next : nat)
    : option Rule * nat * list Diagnostic :=
  match compile_patterns raw with
  | inl reason => (None, next, [onInvalidRule raw reason])
  | inr (k, b, e) =>
      let '(children, next', reports) :=
        (fix compile_all (raws : list RawRule) (n : nat)
           : list Rule * nat * list Diagnostic :=
           match raws with
           | [] => ([], n, [])
           | r :: rest =>
               let '(compiled, n1, d1) := compile_rule r n in
               let '(others, n2, d2) := compile_all rest n1 in
               (match compiled with Some c => c :: others | None => others end,
                n2, d1 ++ d2)
           end) (raw_nested raw) (S next) in
      (Some (mkRule next k b e children (raw_strict raw) (raw_fold_last_line raw)
                    (raw_fold_end_pattern raw) (raw_comment raw)),
       next', reports)
  end.

Fixpoint compile_rules (raws : list RawRule) (next : nat)
    : list Rule * nat * list Diagnostic :=
  match raws with
  | [] => ([], next, [])
  | r :: rest =>
      let '(compiled, n1, d1) := compile_rule r next in
      let '(others, n2, d2) := compile_rules rest n1 in
      (match compiled with Some c => c :: others | None => others end, n2, d1 ++ d2)
  end.

(** Some rule of the configuration, at any depth, sets [descendants]. *)
Fixpoint uses_descendants (raw : RawRule) : bool :=
  raw_descendants raw
  || (fix any (raws : list RawRule) : bool :=
        match raws with
        | [] => false
        | r :: rest => uses_descendants r || any rest
        end) (raw_nested raw).

(** Modelled from the spec: the Rule Set the compiler builds, with what it
    reports: the deprecation of [descendants] once, then the dropped
    rules. Recursion of a rule into its own list, which [descendants]
    asked for, is what the scanner's fall-back to the enclosing scopes
    does for every rule. *)
Definition compile (raws : list RawRule) : list Rule * list Diagnostic :=
  let '(rules, _, reports) := compile_rules raws 0 in
  (rules,
   (if existsb uses_descendants raws then [onDeprecatedField "descendants"] else [])
   ++ reports).

(** *** Matching Engine *)

(** Modelled from the spec: the Open Entry of the scanning stack of
    [./foldingProvider] (not part of [src/]): the rule, where it was
    opened and the groups its begin match captured. The originating
    parent of an entry is the entry below it on the stack. *)
Record OpenEntry := mkOpenEntry {
  entry_rule : Rule;
  entry_line : nat;
  entry_column : nat;
  entry_groups : list string
}.

(** An implicit open of an indentation rule: the line and its width. *)
Record ImplicitOpen := mkImplicitOpen {
  implicit_rule : Rule;
  implicit_line : nat;
  implicit_width : nat
}.

(** The run a consecutive rule is in: its first line and the counter. *)
Record Run := mkRun {
  run_rule : Rule;
  run_first : nat;
  run_count : nat
}.

(** A close event, paired with the open it closes. *)
Record Event := mkEvent {
  event_rule : Rule;
  open_line : nat;
  close_line : nat
}.

Record ScanState := mkScanState {
  stack : list OpenEntry;
  implicit_opens : list ImplicitOpen;
  runs : list Run;
  events : list Event
}.

Definition has_id (i : nat) (r : Rule) : bool := (id r =? i)%nat.

(** Each rule once, the first occurrence kept. *)
Fixpoint distinct_rules (rules : list Rule) (seen : list nat) : list Rule :=
  match rules with
  | [] => []
  | r :: rest =>
      if existsb (Nat.eqb (id r)) seen then distinct_rules rest seen
      else r :: distinct_rules rest (id r :: seen)
  end.

(** Modelled from the spec, step 1 of the scan: the rules attempted on a
    line. The nested set of the top entry comes first, then the rules of
    the scopes around it (the nested sets of the entries below, innermost
    first), down to the top-level Rule Set. *)
Definition active_rules (top : list Rule) (open : list OpenEntry) : list Rule :=
  distinct_rules (concat (map (λ e, nested_rules (entry_rule e)) open) ++ top) [].

Definition begin_group (r : Rule) : Group :=
  match kind r with single_pattern => BeginGroup | _ => WholeMatch end.

Definition end_group (r : Rule) : Group :=
  match kind r with single_pattern => EndGroup | _ => WholeMatch end.

Definition has_delimiters (r : Rule) : bool :=
  match kind r with begin_end | single_pattern => true | _ => false end.

Definition search (pattern : option Regex) (g : Group) (captured : list string)
    (line : string) (from : nat) : option Match :=
  match pattern with
  | Some re => regex_exec re g captured line from
  | None => None
  end.

(** Modelled from the spec, step 2 of the scan: the begin patterns of the
    delimiter rules, in Rule Set order. A match pushes an Open Entry and
    the rest of the line is searched for an immediate end; a match
    consumes its columns, the rules after it are tried from [cursor] on.
    A begin and end on one line give a same-line close (which the
    assembler suppresses); under [strict] they collapse at once unless
    only whitespace separates them. *)
Fixpoint step_begin (rules : list Rule) (line_no : nat) (line : string)
    (cursor : nat) (open : list OpenEntry) (evs : list Event)
    : nat * list OpenEntry * list Event :=
  match rules with
  | [] => (cursor, open, evs)
  | r :: rest =>
      if has_delimiters r then
        match search (begin_pattern r) (begin_group r) [] line cursor with
        | Some m =>
            match search (end_pattern r) (end_group r) (m_groups m) line (m_end m) with
            | Some m2 =>
                let evs' :=
                  if strict r && negb (only_whitespace line (m_end m) (m_start m2))
                  then evs
                  else evs ++ [mkEvent r line_no line_no] in
                step_begin rest line_no line (m_end m2) open evs'
            | None =>
                step_begin rest line_no line (m_end m)
                  (mkOpenEntry r line_no (m_start m) (m_groups m) :: open) evs
            end
        | None => step_begin rest line_no line cursor open evs
        end
      else step_begin rest line_no line cursor open evs
  end.

(** Modelled from the spec, step 3 of the scan: the end patterns of the
    open entries, innermost first. A match pops the entry and emits a
    close event for the current line. An entry under one that stays open
    is only reached by a rule with [fold_end_pattern], which pairs with
    its nearest open entry whatever was opened in between. *)
Fixpoint step_end (open : list OpenEntry) (line_no : nat) (line : string)
    (cursor : nat) (covered : bool) : list OpenEntry * list Event :=
  match open with
  | [] => ([], [])
  | e :: below =>
      let r := entry_rule e in
      let found :=
        if negb covered || fold_end_pattern r
        then search (end_pattern r) (end_group r) (entry_groups e) line cursor
        else None in
      match found with
      | Some m =>
          let '(open', evs) := step_end below line_no line (m_end m) covered in
          (open', mkEvent r (entry_line e) line_no :: evs)
      | None =>
          let '(open', evs) := step_end below line_no line cursor true in
          (e :: open', evs)
      end
  end.

Definition closes_at (width : nat) (rules : list Rule) (i : ImplicitOpen) : bool :=
  existsb (λ r, has_id (id r) (implicit_rule i)) rules
  && (width <=? implicit_width i)%nat.

(** Modelled from the spec, step 4 of the scan: the indentation rules on
    a line of leading-whitespace width [width]. Every implicit open of
    such a rule at that width or deeper is closed, one close event per
    level, at the line immediately above; the line itself becomes an
    implicit open of each rule. *)
Definition step_off_side (rules : list Rule) (line_no : nat) (line : string)
    (opens : list ImplicitOpen) : list ImplicitOpen * list Event :=
  let off_side := filter (λ r, bool_decide (kind r = indentation)) rules in
  let width := indent_width line in
  (map (λ r, mkImplicitOpen r line_no width) off_side
   ++ filter (λ i, negb (closes_at width off_side i)) opens,
   map (λ i, mkEvent (implicit_rule i) (implicit_line i) (line_no - 1))
       (filter (λ i, closes_at width off_side i) opens)).

(** The line extends the run of rule [r]. *)
Definition extends_run (r : Rule) (line : string) : bool :=
  match kind r with
  | consecutive => bool_decide (is_Some (search (begin_pattern r) WholeMatch [] line 0))
  | _ => false
  end.

Definition run_of (r : Rule) (rs : list Run) : option Run :=
  List.find (λ run, has_id (id r) (run_rule run)) rs.

(** A closed run gives a close event only from length 2 on, from its
    first to its last matched line. *)
Definition close_run (run : Run) : list Event :=
  if (2 <=? run_count run)%nat
  then [mkEvent (run_rule run) (run_first run) (run_first run + run_count run - 1)]
  else [].

(** Modelled from the spec, step 5 of the scan: the run counter of each
    consecutive rule. A matching line extends the rule's run (or starts
    one at this line); the runs no matching line extends are closed. *)
Definition step_consecutive (rules : list Rule) (line_no : nat) (line : string)
    (rs : list Run) : list Run * list Event :=
  let matching := filter (λ r, extends_run r line) rules in
  (map (λ r, match run_of r rs with
             | Some run => mkRun r (run_first run) (S (run_count run))
             | None => mkRun r line_no 1
             end) matching,
   concat (map close_run
     (filter (λ run, negb (existsb (has_id (id (run_rule run))) matching)) rs))).

(** Modelled from the spec: one line of the scan, steps 1 to 5 in order. *)
Definition scan_line (top : list Rule) (line_no : nat) (line : string)
    (s : ScanState) : ScanState :=
  let rules := active_rules top (stack s) in
  let '(cursor, open1, evs2) := step_begin rules line_no line 0 (stack s) [] in
  let '(open2, evs3) := step_end open1 line_no line cursor false in
  let '(opens, evs4) := step_off_side rules line_no line (implicit_opens s) in
  let '(rs, evs5) := step_consecutive rules line_no line (runs s) in
  mkScanState open2 opens rs (events s ++ evs2 ++ evs3 ++ evs4 ++ evs5).

Fixpoint scan_lines (top : list Rule) (line_no : nat) (lines : list string)
    (s : ScanState) : ScanState :=
  match lines with
  | [] => s
  | line :: rest => scan_lines top (S line_no) rest (scan_line top line_no line s)
  end.

(** Modelled from the spec: the end of the document. The open entries
    and implicit opens that remain are discarded without a close event;
    the end of the text closes the runs. *)
Definition end_of_document (s : ScanState) : list Event :=
  events s ++ concat (map close_run (runs s)).

(** Modelled from the spec: the Matching Engine of [./foldingProvider],
    from a compiled Rule Set and the lines of a document (numbered from
    0) to the stream of close events. *)
Definition scan (top : list Rule) (lines : list string) : list Event :=
  end_of_document (scan_lines top 0 lines (mkScanState [] [] [] [])).

(** *** Range Assembler *)

Definition kind_of (r : Rule) : FoldingRangeKind :=
  if comment r then Comment else Region.

(** The end line of a pair: the close event's line, minus one when the
    rule has an end delimiter and [fold_last_line] is false, so that the
    delimiter line stays visible. *)
Definition end_line (ev : Event) : nat :=
  if has_delimiters (event_rule ev) && negb (fold_last_line (event_rule ev))
  then close_line ev - 1
  else close_line ev.

Definition to_range (ev : Event) : FoldingRange :=
  mkFoldingRange (open_line ev) (end_line ev) (kind_of (event_rule ev)).

(** Open and close landed on one line. *)
Definition same_line (ev : Event) : bool := (open_line ev =? close_line ev)%nat.

Definition zero_height (r : FoldingRange) : bool :=
  (range_start r =? range_end r)%nat.

Definition clip (last : nat) (r : FoldingRange) : FoldingRange :=
  mkFoldingRange (range_start r) (Nat.min (range_end r) last) (range_kind r).

Definition same_span (a b : FoldingRange) : bool :=
  ((range_start a =? range_start b) && (range_end a =? range_end b))%nat.

(** One range per [(start_line, end_line)], the first seen kept. *)
Fixpoint dedup (ranges seen : list FoldingRange) : list FoldingRange :=
  match ranges with
  | [] => []
  | r :: rest =>
      if existsb (same_span r) seen then dedup rest seen
      else r :: dedup rest (r :: seen)
  end.

(** [a] comes no later than [b]: start line ascending, then end line
    descending (outer ranges first). *)
Definition outer_first (a b : FoldingRange) : bool :=
  ((range_start a <? range_start b)
   || ((range_start a =? range_start b) && (range_end b <=? range_end a)))%nat.

Fixpoint insert_range (r : FoldingRange) (sorted : list FoldingRange)
    : list FoldingRange :=
  match sorted with
  | [] => [r]
  | x :: rest => if outer_first r x then r :: x :: rest else x :: insert_range r rest
  end.

Fixpoint sort_ranges (ranges : list FoldingRange) : list FoldingRange :=
  match ranges with
  | [] => []
  | r :: rest => insert_range r (sort_ranges rest)
  end.

(** Modelled from the spec: the Range Assembler of [./foldingProvider]
    (not part of [src/]). Each pair becomes a range; zero-height results
    are discarded, the suppression of a same-line pair taking priority
    over the [fold_last_line] adjustment; end lines are clipped to the
    last line [last]; identical spans are merged; the result is sorted
    outer first. *)
Definition assemble (last : nat) (evs : list Event) : list FoldingRange :=
  sort_ranges
    (dedup
       (map (clip last)
          (filter (λ r, negb (zero_height r))
             (map to_range (filter (λ ev, negb (same_line ev)) evs))))
       []).

(** *** The engine *)

(** Modelled from the spec: the engine of [./foldingProvider] as its
    boundary describes it, from the rule configuration of a document and
    its lines to the ordered folding ranges, with the reports for the
    diagnostics sink. The index of the last line bounds the end lines. *)
Definition foldingRanges (raws : list RawRule) (lines : list string)
    : list FoldingRange * list Diagnostic :=
  let '(rules, reports) := compile raws in
  (assemble (length lines - 1) (scan rules lines), reports).

(** ** Properties of the engine *)

(** *** Events stay inside the document *)

(** A close event pairs an open with a line at or after it, before line
    [n]. *)
Definition in_bounds (n : nat) (ev : Event) : Prop :=
  (open_line ev ≤ close_line ev ∧ close_line ev < n)%nat.

Definition run_ok (n : nat) (run : Run) : Prop :=
  (1 ≤ run_count run ∧ run_first run + run_count run ≤ n)%nat.

(** What holds of the scan state when the lines before line [n] have
    been scanned. *)
Definition scan_inv (n : nat) (s : ScanState) : Prop :=
  Forall (λ e, entry_line e < n)%nat (stack s) ∧
  Forall (λ i, implicit_line i < n)%nat (implicit_opens s) ∧
  Forall (run_ok n) (runs s) ∧
  Forall (in_bounds n) (events s).

Lemma in_bounds_mono n m ev : (n ≤ m)%nat → in_bounds n ev → in_bounds m ev.
Proof. unfold in_bounds. lia. Qed.

Lemma step_begin_bounds rules L line cursor open evs :
  Forall (λ e, entry_line e < S L)%nat open → Forall (in_bounds (S L)) evs →
  Forall (λ e, entry_line e < S L)%nat (step_begin rules L line cursor open evs).1.2 ∧
  Forall (in_bounds (S L)) (step_begin rules L line cursor open evs).2.
Proof.
  revert cursor open evs.
  induction rules as [|r rest IH]; intros cursor open evs Hopen Hevs; simpl; [done|].
  destruct (has_delimiters r); [|by apply IH].
  destruct (search (begin_pattern r) _ _ _ _) as [m|]; [|by apply IH].
  destruct (search (end_pattern r) _ _ _ _) as [m2|].
  - apply IH; [done|]. destruct (_ && _); [done|].
    apply Forall_app. split; [done|]. constructor; [|done].
    unfold in_bounds. simpl. lia.
  - apply IH; [|done]. constructor; [simpl; lia | done].
Qed.

Lemma step_end_bounds open L line cursor covered :
  Forall (λ e, entry_line e < S L)%nat open →
  Forall (λ e, entry_line e < S L)%nat (step_end open L line cursor covered).1 ∧
  Forall (in_bounds (S L)) (step_end open L line cursor covered).2.
Proof.
  intros Hopen. revert cursor covered.
  induction Hopen as [|e below He Hbelow IH]; intros cursor covered; simpl; [done|].
  destruct (if negb covered || fold_end_pattern (entry_rule e) then _ else None) as [m|].
  - specialize (IH (m_end m) covered).
    destruct (step_end below L line (m_end m) covered) as [open' evs]. simpl in *.
    destruct IH as [IH1 IH2]. split; [done|]. constructor; [|done].
    unfold in_bounds. simpl. lia.
  - specialize (IH cursor true).
    destruct (step_end below L line cursor true) as [open' evs]. simpl in *.
    destruct IH as [IH1 IH2]. split; [by constructor | done].
Qed.

Lemma step_off_side_bounds rules L line opens :
  Forall (λ i, implicit_line i < L)%nat opens →
  Forall (λ i, implicit_line i < S L)%nat (step_off_side rules L line opens).1 ∧
  Forall (in_bounds (S L)) (step_off_side rules L line opens).2.
Proof.
  intros Hopens. unfold step_off_side. simpl. split.
  - apply Forall_app. split.
    + apply Forall_fmap, Forall_true. intros r. simpl. lia.
    + apply Forall_filter_keep. eapply Forall_impl; [exact Hopens|]. simpl. lia.
  - apply Forall_fmap. apply Forall_filter_keep.
    eapply Forall_impl; [exact Hopens|]. intros i Hi. unfold in_bounds. simpl in *. lia.
Qed.

Lemma close_run_bounds n run : run_ok n run → Forall (in_bounds n) (close_run run).
Proof.
  intros [H1 H2]. unfold close_run.
  destruct (2 <=? run_count run)%nat eqn:E; [|done].
  apply Nat.leb_le in E. constructor; [|done]. unfold in_bounds. simpl. lia.
Qed.

Lemma close_runs_bounds n rs :
  Forall (run_ok n) rs → Forall (in_bounds n) (concat (map close_run rs)).
Proof.
  intros H. apply Forall_concat, Forall_fmap.
  eapply Forall_impl; [exact H|]. intros run. apply close_run_bounds.
Qed.

Lemma run_of_elem r rs run : run_of r rs = Some run → run ∈ rs.
Proof.
  unfold run_of. intros H. apply find_some in H as [H _]. by apply list_elem_of_In.
Qed.

Lemma step_consecutive_bounds rules L line rs :
  Forall (run_ok L) rs →
  Forall (run_ok (S L)) (step_consecutive rules L line rs).1 ∧
  Forall (in_bounds (S L)) (step_consecutive rules L line rs).2.
Proof.
  intros Hrs. unfold step_consecutive. simpl. split.
  - apply Forall_fmap, Forall_true. intros r. simpl.
    destruct (run_of r rs) as [run|] eqn:E.
    + apply run_of_elem in E. rewrite Forall_forall in Hrs.
      destruct (Hrs run E). unfold run_ok. simpl. lia.
    + unfold run_ok. simpl. lia.
  - eapply Forall_impl; [|intros ev; apply (in_bounds_mono L (S L)); lia].
    apply close_runs_bounds. by apply Forall_filter_keep.
Qed.

Lemma scan_line_inv top L line s :
  scan_inv L s → scan_inv (S L) (scan_line top L line s).
Proof.
  intros (Hstack & Himp & Hruns & Hevs). unfold scan_line.
  assert (Hstack' : Forall (λ e, entry_line e < S L)%nat (stack s)).
  { eapply Forall_impl; [exact Hstack|]. simpl. lia. }
  pose proof (step_begin_bounds (active_rules top (stack s)) L line 0 (stack s) []
                Hstack' (Forall_nil_2 _)) as [Hb1 Hb2].
  destruct (step_begin _ L line 0 (stack s) []) as [[cursor open1] evs2].
  cbn [fst snd] in *.
  pose proof (step_end_bounds open1 L line cursor false Hb1) as [He1 He2].
  destruct (step_end open1 L line cursor false) as [open2 evs3].
  cbn [fst snd] in *.
  pose proof (step_off_side_bounds (active_rules top (stack s)) L line _ Himp) as [Ho1 Ho2].
  destruct (step_off_side _ L line (implicit_opens s)) as [opens evs4].
  cbn [fst snd] in *.
  pose proof (step_consecutive_bounds (active_rules top (stack s)) L line _ Hruns) as [Hc1 Hc2].
  destruct (step_consecutive _ L line (runs s)) as [rs evs5].
  cbn [fst snd] in *.
  split; [exact He1|]. split; [exact Ho1|]. split; [exact Hc1|].
  cbn [events]. repeat (apply Forall_app; split); try done.
  eapply Forall_impl; [exact Hevs|]. intros ev. apply in_bounds_mono. lia.
Qed.

Lemma scan_lines_inv top lines n s :
  scan_inv n s → scan_inv (n + length lines) (scan_lines top n lines s).
Proof.
  revert n s. induction lines as [|line rest IH]; intros n s Hs; simpl.
  - by rewrite Nat.add_0_r.
  - replace (n + S (length rest))%nat with (S n + length rest)%nat by lia.
    apply IH. by apply scan_line_inv.
Qed.

Lemma scan_in_bounds top lines : Forall (in_bounds (length lines)) (scan top lines).
Proof.
  unfold scan, end_of_document.
  destruct (scan_lines_inv top lines 0 (mkScanState [] [] [] [])) as (_ & _ & Hruns & Hevs).
  { by repeat split. }
  simpl in *. apply Forall_app. split; [done | by apply close_runs_bounds].
Qed.

(** *** What the assembler lets through *)

Definition well_formed (last : nat) (r : FoldingRange) : Prop :=
  (range_start r < range_end r ∧ range_end r ≤ last)%nat.

Lemma dedup_sublist ranges seen x : x ∈ dedup ranges seen → x ∈ ranges.
Proof.
  revert seen. induction ranges as [|r rest IH]; intros seen; simpl; [done|].
  destruct (existsb (same_span r) seen).
  - intros H. right. by eapply IH.
  - intros H. apply elem_of_cons in H as [->|H]; [by left | right; by eapply IH].
Qed.

Lemma insert_range_elem r sorted x :
  x ∈ insert_range r sorted ↔ x = r ∨ x ∈ sorted.
Proof.
  induction sorted as [|y rest IH]; simpl.
  - rewrite list_elem_of_singleton. split; [by left | intros [?|H]; [done|]].
    by apply elem_of_nil in H.
  - destruct (outer_first r y).
    + by rewrite elem_of_cons.
    + rewrite !elem_of_cons, IH. tauto.
Qed.

Lemma sort_ranges_elem ranges x : x ∈ sort_ranges ranges ↔ x ∈ ranges.
Proof.
  induction ranges as [|r rest IH]; simpl; [done|].
  by rewrite insert_range_elem, elem_of_cons, IH.
Qed.

Lemma assemble_well_formed last evs :
  Forall (in_bounds (S last)) evs → Forall (well_formed last) (assemble last evs).
Proof.
  intros Hevs. apply Forall_forall. intros x Hx.
  unfold assemble in Hx. apply sort_ranges_elem, dedup_sublist in Hx.
  apply list_elem_of_fmap in Hx as (r & -> & Hr).
  apply list_elem_of_filter in Hr as [Hheight Hr].
  apply list_elem_of_fmap in Hr as (ev & -> & Hev).
  apply list_elem_of_filter in Hev as [Hline Hev].
  rewrite Forall_forall in Hevs. destruct (Hevs ev Hev) as [Hle Hlt].
  apply negb_prop_elim in Hline. apply negb_prop_elim in Hheight.
  unfold same_line in Hline. unfold zero_height in Hheight. simpl in Hheight.
  rewrite Is_true_true, Nat.eqb_eq in Hline.
  rewrite Is_true_true, Nat.eqb_eq in Hheight.
  unfold well_formed, clip, to_range, end_line in *. simpl.
  destruct (has_delimiters (event_rule ev) && negb (fold_last_line (event_rule ev)));
    lia.
Qed.

(** C2. Whatever the document and the rule configuration, every folding
    range the engine emits starts on a line strictly before the line it
    ends on, and ends no later than the last line of the document. *)
Theorem ranges_balanced_and_bounded (raws : list RawRule) (lines : list string) :
  Forall (λ r, range_start r < range_end r ∧ range_end r ≤ length lines - 1)%nat
    (foldingRanges raws lines).1.
Proof.
  unfold foldingRanges. destruct (compile raws) as [rules reports]. simpl.
  apply (assemble_well_formed (length lines - 1)).
  eapply Forall_impl; [apply scan_in_bounds|].
  intros ev [H1 H2]. split; [done | lia].
Qed.

(** *** Malformed rules *)

Lemma RawRule_nested_ind (P : RawRule → Prop) :
  (∀ raw, Forall P (raw_nested raw) → P raw) → ∀ raw, P raw.
Proof.
  intros H. fix IH 1. intros raw. apply H.
  destruct raw as [b e s o c d nested st fl fe cm]. simpl.
  induction nested as [|x xs IHxs]; constructor; [apply IH | exact IHxs].
Qed.

Lemma compile_rule_unfold (raw : RawRule) (next : nat) :
  compile_rule raw next
  = match compile_patterns raw with
    | inl reason => (None, next, [onInvalidRule raw reason])
    | inr (k, b, e) =>
        let '(children, next', reports) := compile_rules (raw_nested raw) (S next) in
        (Some (mkRule next k b e children (raw_strict raw) (raw_fold_last_line raw)
                      (raw_fold_end_pattern raw) (raw_comment raw)),
         next', reports)
    end.
Proof. destruct raw. reflexivity. Qed.

(** The rule's own declaration is malformed: a ConfigError or a
    PatternError. *)
Definition malformed (raw : RawRule) : bool :=
  match compile_patterns raw with inl _ => true | inr _ => false end.

(** The pattern texts a rule has by its kind (data model): begin and
    end for a begin/end pair, the single pattern, the begin pattern of a
    consecutive rule; an indentation rule has no patterns. *)
Definition patterns_of (raw : RawRule) : list (option string) :=
  match declared_kind raw with
  | Some begin_end => [raw_begin raw; raw_end raw]
  | Some single_pattern => [raw_single raw]
  | Some consecutive => [raw_begin raw]
  | Some indentation | None => []
  end.

(** The regex engine refuses the text. *)
Definition refused (p : option string) : bool :=
  match p with
  | Some text => match regex_compile text with Some _ => false | None => true end
  | None => false
  end.

(** One of the regular expressions of the rule is malformed. *)
Definition malformed_regex (raw : RawRule) : bool := existsb refused (patterns_of raw).

Lemma compile_pattern_refused (p : option string) :
  refused p = true → compile_pattern p = None.
Proof.
  unfold refused, compile_pattern. destruct p as [text|]; [|done].
  by destruct (regex_compile text).
Qed.

(** A rule with a malformed regular expression is a PatternError. *)
Lemma malformed_regex_error (raw : RawRule) :
  malformed_regex raw = true → compile_patterns raw = inl "PatternError".
Proof.
  unfold malformed_regex, patterns_of, compile_patterns.
  destruct (declared_kind raw) as [[ | | | ]|]; simpl; try done.
  - rewrite orb_false_r. intros H. apply orb_true_iff in H as [H|H];
      rewrite (compile_pattern_refused _ H); [done|].
    by destruct (compile_pattern (raw_begin raw)).
  - rewrite orb_false_r. intros H. by rewrite (compile_pattern_refused _ H).
  - rewrite orb_false_r. intros H. by rewrite (compile_pattern_refused _ H).
Qed.

Section Skip.

(** Rules to take out of a configuration, all of them malformed. *)
Variable drop : RawRule → bool.
Hypothesis drop_malformed : ∀ raw, drop raw = true → malformed raw = true.

(** The configuration without the rules to drop: each of them is taken
    out, at any depth, and every other rule stays in place. *)
Fixpoint without (raw : RawRule) : option RawRule :=
  if drop raw then None
  else Some (mkRawRule (raw_begin raw) (raw_end raw) (raw_single raw)
               (raw_off_side raw) (raw_consecutive raw) (raw_descendants raw)
               ((fix all (raws : list RawRule) : list RawRule :=
                   match raws with
                   | [] => []
                   | r :: rest =>
                       match without r with
                       | Some r' => r' :: all rest
                       | None => all rest
                       end
                   end) (raw_nested raw))
               (raw_strict raw) (raw_fold_last_line raw)
               (raw_fold_end_pattern raw) (raw_comment raw)).

Definition skip (raws : list RawRule) : list RawRule := omap without raws.

Lemma without_unfold (raw : RawRule) :
  without raw
  = if drop raw then None
    else Some (mkRawRule (raw_begin raw) (raw_end raw) (raw_single raw)
                 (raw_off_side raw) (raw_consecutive raw) (raw_descendants raw)
                 (skip (raw_nested raw))
                 (raw_strict raw) (raw_fold_last_line raw)
                 (raw_fold_end_pattern raw) (raw_comment raw)).
Proof.
  destruct raw as [b e s o c d nested st fl fe cm]. cbn [without].
  destruct (drop _); reflexivity.
Qed.

(** What compiling keeps of a rule: the compiled rule, if any, and the
    next free identity. *)
Definition compiles_like (raw : RawRule) : Prop :=
  ∀ n, (compile_rule raw n).1
       = match without raw with
         | Some raw' => (compile_rule raw' n).1
         | None => (None, n)
         end.

Lemma compile_rules_skip (raws : list RawRule) :
  Forall compiles_like raws →
  ∀ n, (compile_rules raws n).1 = (compile_rules (skip raws) n).1.
Proof.
  induction 1 as [|r rest Hr _ IH]; intros n; [done|].
  cbn [compile_rules skip omap list_omap].
  specialize (Hr n). fold (skip rest).
  destruct (without r) as [r'|].
  - cbn [compile_rules].
    destruct (compile_rule r n) as [[c n1] d1].
    destruct (compile_rule r' n) as [[c' n1'] d1']. simpl in Hr.
    injection Hr as -> ->. specialize (IH n1').
    destruct (compile_rules rest n1') as [[o n2] d2].
    destruct (compile_rules (skip rest) n1') as [[o' n2'] d2'].
    simpl in *. by injection IH as -> ->.
  - destruct (compile_rule r n) as [[c n1] d1]. simpl in Hr.
    injection Hr as -> ->. specialize (IH n).
    destruct (compile_rules rest n) as [[o n2] d2].
    destruct (compile_rules (skip rest) n) as [[o' n2'] d2'].
    simpl in *. by injection IH as -> ->.
Qed.

Lemma compiles_like_all (raw : RawRule) : compiles_like raw.
Proof.
  induction raw as [raw IH] using RawRule_nested_ind. intros n.
  rewrite without_unfold.
  destruct (drop raw) eqn:Hdrop.
  - apply drop_malformed in Hdrop. unfold malformed in Hdrop.
    rewrite compile_rule_unfold.
    by destruct (compile_patterns raw) as [reason|].
  - rewrite !compile_rule_unfold.
    assert (Hsame : compile_patterns
              (mkRawRule (raw_begin raw) (raw_end raw) (raw_single raw)
                 (raw_off_side raw) (raw_consecutive raw) (raw_descendants raw)
                 (skip (raw_nested raw))
                 (raw_strict raw) (raw_fold_last_line raw)
                 (raw_fold_end_pattern raw) (raw_comment raw))
              = compile_patterns raw) by (destruct raw; reflexivity).
    rewrite Hsame.
    destruct (compile_patterns raw) as [reason|[[k b] e]]; [done|].
    cbn [raw_nested raw_strict raw_fold_last_line raw_fold_end_pattern raw_comment].
    pose proof (compile_rules_skip _ IH (S n)) as Hrec.
    destruct (compile_rules (raw_nested raw) (S n)) as [[c n1] d1].
    destruct (compile_rules (skip (raw_nested raw)) (S n)) as [[c' n1'] d1'].
    simpl in *. by injection Hrec as -> ->.
Qed.

Lemma compile_skip (raws : list RawRule) :
  (compile raws).1 = (compile (skip raws)).1.
Proof.
  unfold compile.
  pose proof (compile_rules_skip raws
                (Forall_true _ _ compiles_like_all) 0) as H.
  destruct (compile_rules raws 0) as [[c n] d].
  destruct (compile_rules (skip raws) 0) as [[c' n'] d'].
  simpl in *. by injection H as -> ->.
Qed.

End Skip.

Lemma compile_rules_reports (raws : list RawRule) (bad : RawRule)
    (reason : string) (n : nat) :
  bad ∈ raws → compile_patterns bad = inl reason →
  onInvalidRule bad reason ∈ (compile_rules raws n).2.
Proof.
  intros Hin Hbad. revert n.
  induction raws as [|r rest IH]; intros n; [by apply elem_of_nil in Hin|].
  cbn [compile_rules].
  apply elem_of_cons in Hin as [<-|Hin].
  - rewrite compile_rule_unfold, Hbad.
    destruct (compile_rules rest n) as [[o n2] d2]. simpl. by left.
  - destruct (compile_rule r n) as [[c n1] d1].
    specialize (IH Hin n1).
    destruct (compile_rules rest n1) as [[o n2] d2]. simpl in *.
    apply elem_of_app. by right.
Qed.

Lemma compile_rules_all_malformed (raws : list RawRule) (n : nat) :
  Forall (λ raw, malformed raw = true) raws → (compile_rules raws n).1.1 = [].
Proof.
  induction 1 as [|r rest Hr _ IH]; [done|].
  cbn [compile_rules]. rewrite compile_rule_unfold. unfold malformed in Hr.
  destruct (compile_patterns r) as [reason|]; [|done].
  destruct (compile_rules rest n) as [[o n2] d2]. simpl in *. exact IH.
Qed.

Lemma scan_no_rules (lines : list string) : scan [] lines = [].
Proof.
  unfold scan. generalize 0.
  induction lines as [|line rest IH]; intros n; [done|].
  simpl. exact (IH (S n)).
Qed.

Lemma malformed_regex_malformed (raw : RawRule) :
  malformed_regex raw = true → malformed raw = true.
Proof. intros H. unfold malformed. by rewrite (malformed_regex_error raw H). Qed.

(** C5. A rule one of whose regular expressions the regex engine
    refuses is skipped, alone: the ranges of any document are those of
    the configuration from which every such rule is taken out, whatever
    else the configuration holds; each such rule of the list is reported
    to the sink as a PatternError; and when every rule of the list is
    such a rule the engine returns no range. The engine returns its
    ranges for every configuration and every document. *)
Theorem malformed_rules_are_skipped (raws : list RawRule) (lines : list string) :
  (foldingRanges raws lines).1
  = (foldingRanges (skip malformed_regex raws) lines).1 ∧
  (∀ bad, bad ∈ raws → malformed_regex bad = true →
     onInvalidRule bad "PatternError" ∈ (foldingRanges raws lines).2) ∧
  (Forall (λ raw, malformed_regex raw = true) raws → (foldingRanges raws lines).1 = []).
Proof.
  unfold foldingRanges. split; [|split].
  - pose proof (compile_skip malformed_regex malformed_regex_malformed raws) as H.
    destruct (compile raws) as [rules reports].
    destruct (compile (skip malformed_regex raws)) as [rules' reports'].
    simpl in *. by subst.
  - intros bad Hin Hbad. unfold compile.
    pose proof (compile_rules_reports raws bad "PatternError" 0 Hin
                  (malformed_regex_error bad Hbad)) as Hr.
    destruct (compile_rules raws 0) as [[c n] d]. simpl in *.
    apply elem_of_app. by right.
  - intros Hall. unfold compile.
    assert (Hall' : Forall (λ raw, malformed raw = true) raws).
    { eapply Forall_impl; [exact Hall|]. apply malformed_regex_malformed. }
    pose proof (compile_rules_all_malformed raws 0 Hall') as H.
    destruct (compile_rules raws 0) as [[c n] d]. simpl in *. subst c.
    by rewrite scan_no_rules.
Qed.

(** *** Consecutive rules *)









Section ConsecutiveRule.

#[local] Open Scope nat_scope.

(** A Rule Set [top], one of its consecutive rules [r], and the scan
    states met on the way, in each of which [r] is among the rules
    attempted on a line and is the only one of its identity. *)
Variable top : list Rule.
Variable r : Rule.
Hypothesis r_kind : kind r = consecutive.
Variable reachable : ScanState → Prop.
Hypothesis reachable_step :
  ∀ n line s, reachable s → reachable (scan_line top n line s).
Hypothesis reachable_active :
  ∀ s, reachable s →
    r ∈ active_rules top (stack s) ∧
    ∀ x, x ∈ active_rules top (stack s) → id x = id r → x = r.


























Section OneLine.

Variable rules : list Rule.
Variable n : nat.
Variable line : string.
Variable rs : list Run.
Hypothesis rules_distinct : NoDup (map id rules).
Hypothesis r_active : r ∈ rules.
Hypothesis r_only : ∀ x, x ∈ rules → id x = id r → x = r.
Hypothesis rs_distinct : NoDup (map (λ run, id (run_rule run)) rs).
Hypothesis rs_only : ∀ run, run ∈ rs → id (run_rule run) = id r → run_rule run = r.







End OneLine.





End ConsecutiveRule.

(** *** Identities handed out by the compiler *)






















(** *** Rules in reach of the scan *)







(** *** One range per span *)












(** *** A Rule Set of one consecutive rule *)







End WithRegex.


(** *** A small pattern language to run the engine on

    Literal patterns, optionally anchored at the start of the line with a
    leading [^]; a parenthesis has no closing partner in this language
    and makes the pattern malformed, as does the empty pattern. *)

Inductive Literal := Anywhere (text : string) | AtStart (text : string).

Fixpoint contains_char (c : Ascii.ascii) (s : string) : bool :=
  match s with
  | EmptyString => false
  | String c' rest => Ascii.eqb c c' || contains_char c rest
  end.

Definition literal_compile (p : string) : option Literal :=
  match p with
  | EmptyString => None
  | String c rest =>
      if contains_char (Ascii.ascii_of_nat 40) p then None
      else if (Ascii.nat_of_ascii c =? 94)%nat then
        (if String.eqb rest "" then None else Some (AtStart rest))
      else Some (Anywhere p)
  end.

Definition literal_exec (re : Literal) (g : Group) (captured : list string)
    (line : string) (from : nat) : option Match :=
  match re with
  | Anywhere text =>
      match String.index from text line with
      | Some i => Some (mkMatch i (i + String.length text) [])
      | None => None
      end
  | AtStart text =>
      if (from =? 0)%nat && String.prefix text line
      then Some (mkMatch 0 (String.length text) [])
      else None
  end.

Definition literal_ranges (raws : list RawRule) (lines : list string)
    : list FoldingRange :=
  (foldingRanges literal_compile literal_exec raws lines).1.

(** A begin/end rule object with the given flags. *)
Definition delimited (b e : string) (children : list RawRule)
    (is_strict last_line is_comment : bool) : RawRule :=
  mkRawRule (Some b) (Some e) None false false false children
            is_strict last_line false is_comment.

(** A consecutive rule object. *)
Definition line_run (b : string) (is_comment : bool) : RawRule :=
  mkRawRule (Some b) None None false true false [] false true false is_comment.

(** An indentation rule object. *)
Definition off_side_block : RawRule :=
  mkRawRule None None None true false false [] false true false false.

(** *** The scenarios of the specification, run *)

(** Scenario A: a block over three lines. *)
Example scenario_block :
  literal_ranges [delimited "{" "}" [] false true false] ["a {"; "b"; "}"]
  = [mkFoldingRange 0 2 Region].
Proof. reflexivity. Qed.

(** Scenario B: begin and end on one line, strict. *)
Example scenario_same_line :
  literal_ranges [delimited "{" "}" [] true true false] ["a { b }"] = [].
Proof. reflexivity. Qed.

(** Scenario C: a comment rule nested in a block rule. *)
Example scenario_nested_comment :
  literal_ranges
    [delimited "{" "}" [delimited "/*" "*/" [] false true true] false true false]
    ["x"; "{"; "/*"; "*/"; "y"; "}"]
  = [mkFoldingRange 1 5 Region; mkFoldingRange 2 3 Comment].
Proof. reflexivity. Qed.

(** Scenario D: the outer open is never closed. *)
Example scenario_unbalanced :
  literal_ranges [delimited "{" "}" [] false true false] ["{"; "{"; "}"]
  = [mkFoldingRange 1 2 Region].
Proof. reflexivity. Qed.

(** Scenario E: two comment lines, then code. *)
Example scenario_consecutive :
  literal_ranges [line_run "//" true] ["// a"; "// b"; "code"]
  = [mkFoldingRange 0 1 Comment].
Proof. reflexivity. Qed.

(** A single comment line between code lines folds nothing. *)
Example single_line_run :
  literal_ranges [line_run "//" true] ["code"; "// a"; "code"] = [].
Proof. reflexivity. Qed.

(** Indentation blocks close on the line above the one that ends them. *)
Example off_side_blocks :
  literal_ranges [off_side_block]
    ["def f():"; "  a"; "  b"; "def g():"; "  c"; "end"]
  = [mkFoldingRange 0 2 Region; mkFoldingRange 3 4 Region].
Proof. reflexivity. Qed.

(** With [fold_last_line] unset the closing line stays out of the fold;
    a block of two lines then has nothing left to fold. *)
Example closing_line_kept_visible :
  literal_ranges [delimited "{" "}" [] false false false]
    ["{"; "x"; "}"; "{ }"; "{"; "}"]
  = [mkFoldingRange 0 1 Region].
Proof. reflexivity. Qed.

(** A rule with a malformed pattern is reported and the one after it
    still folds. *)
Example malformed_rule_reported :
  foldingRanges literal_compile literal_exec
    [delimited "(" "}" [] false true false; line_run "//" true]
    ["// a"; "// b"; "code"]
  = ([mkFoldingRange 0 1 Comment],
     [onInvalidRule (delimited "(" "}" [] false true false) "PatternError"]).
Proof. reflexivity. Qed.


End Engine.

(** ** More of src/extension.ts: what the functions keep and compose to *)

Module Behaviour.
Import Js Vscode Extension.

(** [m] leaves the part [f] of the host state as it found it, whether it
    returns or throws. *)
Definition keeps {A X} (f : Host → X) (m : M A) : Prop :=
  ∀ h, f (m h).1 = f h.

Lemma keeps_ret {A X} (f : Host → X) (a : A) : keeps f (mret a).
Proof. by intros h. Qed.

Lemma keeps_throw {A X} (f : Host → X) (e : string) : keeps f (@throw A e).
Proof. by intros h. Qed.

Lemma keeps_bind {A B X} (f : Host → X) (m : M A) (k : A → M B) :
  keeps f m → (∀ a, keeps f (k a)) → keeps f (m ≫= k).
Proof.
  intros Hm Hk h. unfold mbind, M_bind. specialize (Hm h).
  destruct (m h) as [h1 [a|e]]; simpl in *; [|done].
  by rewrite Hk.
Qed.

Lemma keeps_for_of {A X} (f : Host → X) (xs : list A) (body : A → M unit) :
  (∀ x, keeps f (body x)) → keeps f (for_of xs body).
Proof.
  intros Hbody. induction xs as [|x rest IH]; simpl; [apply keeps_ret|].
  apply keeps_bind; [apply Hbody | intros _; exact IH].
Qed.

Ltac keeps_step :=
  first [ apply keeps_bind; [|intros ?]
        | apply keeps_for_of; intros ?
        | apply keeps_ret
        | apply keeps_throw
        | match goal with
          | |- keeps _ (if ?b then _ else _) => destruct b
          | |- keeps _ (match ?x with _ => _ end) => destruct x
          end
        | (intros ?; reflexivity) ].

Ltac keeps_all := repeat keeps_step.

(** *** foldDocument *)

Lemma foldDocument_returns env document h :
  ∃ h', foldDocument env document h = (h', Returned ()).
Proof.
  destruct (calm_foldDocument env document h) as (h' & [] & E & _). eauto.
Qed.

(** The commands of the [autoFold] setting, before [$documents] is
    looked at. *)
Definition autoFold_commands (env : Env) (document : TextDocument) : M unit :=
  let config := getConfiguration env "explicitFolding" (Some document) in
  let autoFold := js_or (wc_get config "autoFold") (JStr "none") in
  if strict_eq_str autoFold "all" then executeCommand "editor.foldAll"
  else if strict_eq_str autoFold "comments" then
    executeCommand "editor.foldAllBlockComments"
  else if negb (strict_eq_str autoFold "none") then
    _ ← executeCommand "editor.unfoldAll";
    match parseInt env autoFold with
    | Some level =>
        for_of (fold_levels level)
          (λ i, executeCommand ("editor.foldLevel" +:+ pretty i))
    | None => mret ()
    end
  else mret ().

Lemma foldDocument_split env document :
  foldDocument env document
  = (_ ← autoFold_commands env document;
     known ← documents_includes document;
     if negb known then documents_push document else mret ()).
Proof. reflexivity. Qed.

Lemma autoFold_commands_keeps_documents env document :
  keeps h_documents (autoFold_commands env document).
Proof. unfold autoFold_commands. keeps_all. Qed.

Lemma autoFold_commands_returns env document h :
  ∃ h', autoFold_commands env document h = (h', Returned ()).
Proof.
  assert (Hcalm : calm (autoFold_commands env document))
    by (unfold autoFold_commands; calm_all).
  destruct (Hcalm h) as (h' & [] & E & _). eauto.
Qed.

Lemma foldDocument_run (env : Env) (document : TextDocument) (h : Host) :
  ∃ h', foldDocument env document h = (h', Returned ()) ∧
    h_documents h'
    = (if bool_decide (document ∈ h_documents h) then h_documents h
       else h_documents h ++ [document]).
Proof.
  rewrite foldDocument_split.
  destruct (autoFold_commands_returns env document h) as (h1 & E1).
  pose proof (autoFold_commands_keeps_documents env document h) as K1.
  rewrite E1 in K1. simpl in K1.
  rewrite (bind_returned _ _ _ _ _ E1).
  unfold mbind, M_bind, documents_includes. rewrite K1.
  destruct (bool_decide (document ∈ h_documents h)) eqn:Hin; simpl.
  - eexists. split; [reflexivity | done].
  - eexists. split; [reflexivity|]. simpl. by rewrite K1.
Qed.

(** X1. [foldDocument] never throws and leaves the document object in
    [$documents] exactly as often as before or once more: an object
    that is already there is not pushed again, a new one goes to the
    end, and an array without repetitions stays without. *)
Theorem foldDocument_records_document (env : Env) (document : TextDocument) (h : Host) :
  ∃ h', foldDocument env document h = (h', Returned ()) ∧
    h_documents h'
    = (if bool_decide (document ∈ h_documents h) then h_documents h
       else h_documents h ++ [document]) ∧
    document ∈ h_documents h' ∧
    (NoDup (h_documents h) → NoDup (h_documents h')).
Proof.
  destruct (foldDocument_run env document h) as (h' & E & Hd).
  exists h'. split; [done|]. split; [done|]. rewrite Hd.
  destruct (bool_decide (document ∈ h_documents h)) eqn:Hin.
  - apply bool_decide_eq_true in Hin. done.
  - apply bool_decide_eq_false in Hin. split.
    + apply elem_of_app. right. by left.
    + intros Hnd. apply NoDup_app. split; [done|]. split.
      * intros x Hx Hx'. apply list_elem_of_singleton in Hx'. by subst.
      * apply NoDup_singleton.
Qed.

(** A file that is closed and opened again comes as a new object, which
    is pushed beside the one of the first opening. *)
Example foldDocument_reopened_file :
  let env := example_env (mkDate 2024 0 15 0) in
  let reopened := mkDocument 5 "file:///a.py" "python" in
  h_documents (foldDocument env reopened (foldDocument env python_file empty_host).1).1
  = [python_file; reopened].
Proof. reflexivity. Qed.

Lemma fold_levels_elem (level i : Z) : i ∈ fold_levels level ↔ (level ≤ i ≤ 7)%Z.
Proof.
  unfold fold_levels. rewrite list_elem_of_fmap. split.
  - intros (k & -> & Hk). apply elem_of_seq in Hk. lia.
  - intros Hi. exists (Z.to_nat (7 - i)). split; [lia|].
    apply elem_of_seq. lia.
Qed.

Lemma fold_levels_lookup (level : Z) (k : nat) :
  (k < Z.to_nat (8 - level))%nat → fold_levels level !! k = Some (7 - Z.of_nat k)%Z.
Proof.
  intros Hk. unfold fold_levels. rewrite list_lookup_fmap.
  rewrite lookup_seq_lt by lia. done.
Qed.

Lemma for_of_executeCommand {A} (name : A → string) (xs : list A) (h : Host) :
  ∃ h', for_of xs (λ x, executeCommand (name x)) h = (h', Returned ()) ∧
    h_commands h' = h_commands h ++ map name xs.
Proof.
  revert h. induction xs as [|x rest IH]; intros h; simpl.
  - exists h. by rewrite app_nil_r.
  - unfold mbind, M_bind, executeCommand at 1.
    match goal with |- context [for_of rest _ ?h0] =>
      destruct (IH h0) as (h' & E & Hc) end.
    exists h'. rewrite E. split; [done|]. simpl in Hc. by rewrite Hc, <- app_assoc.
Qed.

(** X2. With an [autoFold] setting that is a string other than "all",
    "comments" and "none", [foldDocument] runs [editor.unfoldAll] and
    then one [editor.foldLevel] command for each level from 7 down to
    the level [parseInt] reads, and no other command: nothing more when
    that level is above 7 or the text is no number. *)
Theorem foldDocument_folds_down_to_level (env : Env) (document : TextDocument)
    (h : Host) (s : string) :
  wc_get (getConfiguration env "explicitFolding" (Some document)) "autoFold" = JStr s →
  s ≠ "" → s ≠ "all" → s ≠ "comments" → s ≠ "none" →
  ∃ h', foldDocument env document h = (h', Returned ()) ∧
    h_commands h'
    = h_commands h ++ "editor.unfoldAll" ::
        match parseInt env (JStr s) with
        | Some level => map (λ i, "editor.foldLevel" +:+ pretty i) (fold_levels level)
        | None => []
        end ∧
    (∀ level, parseInt env (JStr s) = Some level →
       length (fold_levels level) = Z.to_nat (8 - level) ∧
       (∀ k, (k < Z.to_nat (8 - level))%nat →
             fold_levels level !! k = Some (7 - Z.of_nat k)%Z) ∧
       ∀ i, "editor.foldLevel" +:+ pretty i ∈ h_commands h'
            ↔ "editor.foldLevel" +:+ pretty i ∈ h_commands h ∨ (level ≤ i ≤ 7)%Z).
Proof.
  intros Hget Hempty Hall Hcomments Hnone.
  assert (Hauto : js_or (wc_get (getConfiguration env "explicitFolding" (Some document))
                           "autoFold") (JStr "none") = JStr s).
  { rewrite Hget. unfold js_or. simpl.
    destruct (String.eqb s "") eqn:E; [by apply String.eqb_eq in E | done]. }
  assert (Hcmds : ∃ h1, autoFold_commands env document h = (h1, Returned ()) ∧
    h_commands h1 = h_commands h ++ "editor.unfoldAll" ::
        match parseInt env (JStr s) with
        | Some level => map (λ i, "editor.foldLevel" +:+ pretty i) (fold_levels level)
        | None => []
        end).
  { unfold autoFold_commands. rewrite Hauto. simpl.
    rewrite (proj2 (String.eqb_neq s "all") Hall).
    rewrite (proj2 (String.eqb_neq s "comments") Hcomments).
    rewrite (proj2 (String.eqb_neq s "none") Hnone). simpl.
    unfold mbind, M_bind, executeCommand at 1.
    destruct (parseInt env (JStr s)) as [level|].
    - match goal with |- context [for_of _ _ ?h0] =>
        destruct (for_of_executeCommand (λ i : Z, "editor.foldLevel" +:+ pretty i)
                    (fold_levels level) h0) as (h1 & E & Hc) end.
      exists h1. rewrite E. split; [done|]. simpl in Hc. by rewrite Hc, <- app_assoc.
    - eexists. split; [reflexivity | done]. }
  destruct Hcmds as (h1 & E1 & Hc1).
  destruct (foldDocument_returns env document h) as (h' & E).
  assert (Hc : h_commands h' = h_commands h1).
  { rewrite foldDocument_split, (bind_returned _ _ _ _ _ E1) in E.
    assert (K : keeps h_commands
                  (known ← documents_includes document;
                   if negb known then documents_push document else mret ()))
      by keeps_all.
    specialize (K h1). by rewrite E in K. }
  exists h'. split; [done|]. rewrite Hc, Hc1. split; [done|].
  intros level Hlevel. rewrite Hlevel. split; [|split].
  - unfold fold_levels. rewrite length_map, length_seq. f_equal. lia.
  - apply fold_levels_lookup.
  - intros i. rewrite elem_of_app, elem_of_cons, list_elem_of_fmap. split.
    + intros [?|[Heq|(j & Heq & Hj)]]; [by left | done |].
      right. apply fold_levels_elem.
      apply (inj (String.app "editor.foldLevel")) in Heq.
      apply (inj pretty) in Heq. by subst.
    + intros [?|Hi]; [by left|]. right. right. exists i.
      split; [done | by apply fold_levels_elem].
Qed.

Definition autoFold_env (setting : string) (level : option Z) : Env :=
  mkEnv (λ _ _, mkConfiguration [] (<["autoFold" := JStr setting]> ∅))
        (mkDate 2024 0 15 0) (λ _, None) (λ _, level) no_builtin.

Lemma foldDocument_folds_down_to_level_witness :
  wc_get (getConfiguration (autoFold_env "5" (Some 5%Z)) "explicitFolding"
            (Some python_file)) "autoFold" = JStr "5" ∧
  h_commands (foldDocument (autoFold_env "5" (Some 5%Z)) python_file empty_host).1
  = ["editor.unfoldAll"; "editor.foldLevel7"; "editor.foldLevel6"; "editor.foldLevel5"].
Proof.
  split; [reflexivity|].
  destruct (foldDocument_folds_down_to_level (autoFold_env "5" (Some 5%Z))
              python_file empty_host "5" eq_refl)
    as (h' & E & Hc & _); [done | done | done | done |].
  rewrite E. exact Hc.
Defined.

(** *** getDebugChannel *)

(** X3. With [debug] set, [getDebugChannel] returns the output channel
    and creates it only when there is none: an existing channel is
    returned with the host state untouched, a following call returns the
    same channel and changes nothing. Without [debug] it returns [null]
    and leaves an existing channel in place. *)
Theorem getDebugChannel_created_once (h : Host) :
  ∃ c h', getDebugChannel true h = (h', Returned (Some c)) ∧
    h_channel h' = Some c ∧
    c = default "Folding" (h_channel h) ∧
    (is_Some (h_channel h) → h' = h) ∧
    getDebugChannel true h' = (h', Returned (Some c)) ∧
    getDebugChannel false h' = (h', Returned None).
Proof.
  unfold getDebugChannel, mbind, M_bind, channel_get.
  destruct (h_channel h) as [c|] eqn:Hc; simpl.
  - exists c, h. repeat (rewrite Hc; simpl). repeat split; done.
  - eexists "Folding", _. split; [reflexivity|]. simpl.
    repeat split; try done.
Qed.

(** *** getRules: the deprecation warning *)

Lemma not_after_june_not_after_july (d : Date) :
  date_gt d JUNE_1_2022 = false → date_gt d JULY_1_2022 = false.
Proof.
  unfold date_gt, JUNE_1_2022, JULY_1_2022, Date_ymd. simpl.
  destruct (getFullYear d =? 2022)%Z; [|done].
  destruct (getMonth d =? 5)%Z eqn:E5.
  - apply Z.eqb_eq in E5. rewrite E5. simpl. intros _. reflexivity.
  - destruct (getMonth d =? 6)%Z eqn:E6.
    + apply Z.eqb_eq in E6. rewrite E6. simpl. done.
    + intros H. apply Z.ltb_ge in H. apply Z.ltb_ge. apply Z.eqb_neq in E5. lia.
Qed.

(** The last warning on record is from the month of [d]. *)
Definition warned_this_month (d : Date) (h : Host) : Prop :=
  ∃ last, h_globalState h !! DEPRECATED_KEY = Some last ∧
          getFullYear last = getFullYear d ∧ getMonth last = getMonth d.

Lemma getRules_silent (env : Env) (h : Host) :
  (4 < length (wc_keys (getConfiguration env "folding" None)))%nat →
  date_gt (now env) JUNE_1_2022 = false →
  warned_this_month (now env) h →
  getRules env h = (h, Returned (getConfiguration env "folding" None)).
Proof.
  intros Hmany Hjune (last & Hlast & Hy & Hm).
  unfold getRules. rewrite (proj2 (Nat.ltb_lt _ _) Hmany).
  unfold mbind, M_bind, globalState_get at 1.
  rewrite (not_after_june_not_after_july _ Hjune), Hlast, Hjune, Hy, Hm.
  by rewrite !Z.eqb_refl.
Qed.

Lemma getRules_leaves_record (env : Env) (h : Host) :
  (4 < length (wc_keys (getConfiguration env "folding" None)))%nat →
  date_gt (now env) JULY_1_2022 = false →
  warned_this_month (now env) (getRules env h).1 ∨
  (date_gt (now env) JUNE_1_2022 = false ∧ warned_this_month (now env) h ∧
   (getRules env h).1 = h).
Proof.
  intros Hmany Hjuly. destruct (getRules env h) as [h1 o] eqn:E. cbn [fst].
  unfold getRules in E. rewrite (proj2 (Nat.ltb_lt _ _) Hmany) in E.
  unfold mbind, M_bind, globalState_get in E. rewrite Hjuly in E. cbv beta in E.
  assert (Hstored : ∀ h0, warned_this_month (now env)
    (mkHost (h_warnings h0 ++ [FOLDING_DEPRECATED_WARNING]) (h_errors h0)
       (h_commands h0) (<[DEPRECATED_KEY := now env]> (h_globalState h0))
       (h_disposable h0) (h_timers h0) (h_documents h0) (h_channel h0)
       (h_providers h0) (h_setup_calls h0))).
  { intros h0. exists (now env). simpl. by rewrite lookup_insert_eq. }
  destruct (h_globalState h !! DEPRECATED_KEY) as [last|] eqn:Hlast.
  - destruct (negb (getFullYear last =? getFullYear (now env))%Z) eqn:Ey;
      [simpl in E; injection E as <- <-; left; apply Hstored|].
    destruct (negb (getMonth last =? getMonth (now env))%Z) eqn:Em;
      [simpl in E; injection E as <- <-; left; apply Hstored|].
    destruct (date_gt (now env) JUNE_1_2022) eqn:Ej;
      [simpl in E; injection E as <- <-; left; apply Hstored|].
    simpl in E. injection E as <- <-.
    right. split; [done|]. split; [|done]. exists last.
    apply negb_false_iff, Z.eqb_eq in Ey. apply negb_false_iff, Z.eqb_eq in Em. done.
  - simpl in E. injection E as <- <-. left. apply Hstored.
Qed.

(** X4. While the deprecated [folding] section is in use (more than 4
    keys) and the clock has not passed June 1, 2022, the deprecation
    warning comes at most once a month: after one call of [getRules],
    any further call made in the same year and month returns the
    [folding] section without a message and without touching the host
    state. *)
Theorem getRules_warns_once_a_month (env env' : Env) (h : Host) :
  (4 < length (wc_keys (getConfiguration env "folding" None)))%nat →
  (4 < length (wc_keys (getConfiguration env' "folding" None)))%nat →
  date_gt (now env) JUNE_1_2022 = false →
  date_gt (now env') JUNE_1_2022 = false →
  getFullYear (now env') = getFullYear (now env) →
  getMonth (now env') = getMonth (now env) →
  getRules env' (getRules env h).1
  = ((getRules env h).1, Returned (getConfiguration env' "folding" None)).
Proof.
  intros Hmany Hmany' Hjune Hjune' Hy Hm.
  apply getRules_silent; [done | done |].
  destruct (getRules_leaves_record env h Hmany
              (not_after_june_not_after_july _ Hjune))
    as [(last & Hl & Hly & Hlm)|(_ & (last & Hl & Hly & Hlm) & ->)];
    exists last; (split; [done|]); split; congruence.
Qed.

Lemma getRules_warns_once_a_month_witness :
  let env := legacy_env (mkDate 2022 2 10 0) in
  let env' := legacy_env (mkDate 2022 2 28 500) in
  (4 < length (wc_keys (getConfiguration env "folding" None)))%nat ∧
  date_gt (now env) JUNE_1_2022 = false ∧
  h_warnings (getRules env empty_host).1 = [FOLDING_DEPRECATED_WARNING] ∧
  getRules env' (getRules env empty_host).1
  = ((getRules env empty_host).1, Returned legacy_folding).
Proof.
  intros env env'. split; [simpl; lia|]. split; [reflexivity|]. split; [reflexivity|].
  apply (getRules_warns_once_a_month env env' empty_host);
    [simpl; lia | simpl; lia | reflexivity | reflexivity | reflexivity | reflexivity].
Defined.

(** X5. From June 1, 2022 until the cutoff of July 1, 2022 there is no
    such pause: every call of [getRules] on a [folding] section of more
    than 4 keys shows the deprecation warning again, records the clock,
    and still returns the [folding] section. *)
Theorem getRules_warns_every_call_in_june (env : Env) (h : Host) :
  (4 < length (wc_keys (getConfiguration env "folding" None)))%nat →
  date_gt (now env) JUNE_1_2022 = true →
  date_gt (now env) JULY_1_2022 = false →
  ∃ h', getRules env h = (h', Returned (getConfiguration env "folding" None)) ∧
    h_warnings h' = h_warnings h ++ [FOLDING_DEPRECATED_WARNING] ∧
    h_errors h' = h_errors h ∧
    h_globalState h' !! DEPRECATED_KEY = Some (now env).
Proof.
  intros Hmany Hjune Hjuly.
  unfold getRules. rewrite (proj2 (Nat.ltb_lt _ _) Hmany).
  unfold mbind, M_bind, globalState_get at 1. rewrite Hjuly, Hjune. cbv beta.
  destruct (h_globalState h !! DEPRECATED_KEY) as [last|]; simpl.
  - rewrite orb_true_r. simpl. eexists. split; [reflexivity|]. simpl.
    by rewrite lookup_insert_eq.
  - eexists. split; [reflexivity|]. simpl. by rewrite lookup_insert_eq.
Qed.

Lemma getRules_warns_every_call_in_june_witness :
  let env := legacy_env (mkDate 2022 5 15 0) in
  (4 < length (wc_keys (getConfiguration env "folding" None)))%nat ∧
  date_gt (now env) JUNE_1_2022 = true ∧ date_gt (now env) JULY_1_2022 = false ∧
  h_warnings (getRules env (getRules env empty_host).1).1
  = [FOLDING_DEPRECATED_WARNING; FOLDING_DEPRECATED_WARNING].
Proof.
  intros env. split; [simpl; lia|]. split; [reflexivity|]. split; [reflexivity|].
  destruct (getRules_warns_every_call_in_june env (getRules env empty_host).1)
    as (h' & E & Hw & _); [simpl; lia | reflexivity | reflexivity |].
  rewrite E. exact Hw.
Defined.

(** *** applyRules *)

(** X6. Handing [applyRules] an array is the same as handing it the
    elements one after the other, provided each element is a rule on its
    own: truthy and not itself an array. (An array element that is falsy
    is pushed all the same, and one that is an array is pushed whole,
    where a call of its own would drop the first and spread the
    second.) *)
Theorem applyRules_array_is_sequence (items rules : list JsValue) :
  Forall (λ x, truthy x = true ∧ isArray x = false) items →
  applyRules (JArr items) rules = foldl (λ acc x, applyRules x acc) rules items.
Proof.
  intros Hitems. revert rules.
  induction Hitems as [|x rest [Ht Ha] _ IH]; intros rules; simpl.
  - by rewrite app_nil_r.
  - rewrite <- IH. simpl.
    assert (Hx : applyRules x rules = rules ++ [x]).
    { destruct x; simpl in *; try done; by rewrite ?Ht. }
    rewrite Hx, <- app_assoc. done.
Qed.

Lemma applyRules_array_is_sequence_witness :
  Forall (λ x, truthy x = true ∧ isArray x = false) [brace_rule; region_rule] ∧
  applyRules (JArr [brace_rule; region_rule]) [legacy_rule]
  = applyRules region_rule (applyRules brace_rule [legacy_rule]).
Proof.
  assert (H : Forall (λ x, truthy x = true ∧ isArray x = false)
                [brace_rule; region_rule]) by (repeat constructor).
  split; [exact H|].
  exact (applyRules_array_is_sequence [brace_rule; region_rule] [legacy_rule] H).
Defined.

(** *** checkDeprecatedRules: entries that are no rules *)

Lemma check_each_throws (check : JsValue → list string → option (list string))
    (rules : list JsValue) (x : JsValue) (d : list string) :
  x ∈ rules → (∀ d', check x d' = None) → check_each check rules d = None.
Proof.
  intros Hin Hx. revert d.
  induction rules as [|r rest IH]; intros d; [by apply elem_of_nil in Hin|].
  simpl. apply elem_of_cons in Hin as [<-|Hin]; [by rewrite Hx|].
  destruct (check r d); [by apply IH | done].
Qed.

(** X7. A [null] or [undefined] entry anywhere in the rule list makes
    [checkDeprecatedRules] throw a TypeError, and the throw comes before
    any message: the host state is as it was, with no deprecation
    warning even when other rules of the list declare [descendants]. *)
Theorem checkDeprecatedRules_throws_on_null (rules : list JsValue) (h : Host) :
  JNull ∈ rules ∨ JUndefined ∈ rules →
  checkDeprecatedRules rules h = (h, Thrown "TypeError").
Proof.
  intros Hin. unfold checkDeprecatedRules.
  rewrite checkDeprecatedRule_array.
  destruct Hin as [Hin|Hin];
    by rewrite (check_each_throws _ _ _ _ Hin).
Qed.

Lemma checkDeprecatedRules_throws_on_null_witness :
  (JNull ∈ [legacy_rule; JNull] ∨ JUndefined ∈ [legacy_rule; JNull]) ∧
  checkDeprecatedRules [legacy_rule; JNull] empty_host
  = (empty_host, Thrown "TypeError").
Proof.
  assert (H : JNull ∈ [legacy_rule; JNull] ∨ JUndefined ∈ [legacy_rule; JNull])
    by (left; right; left).
  split; [exact H|].
  exact (checkDeprecatedRules_throws_on_null [legacy_rule; JNull] empty_host H).
Defined.

(** *** MainProvider.provideFoldingRanges *)

Lemma provideFoldingRanges_known env document h :
  registered (languageId document) h = true →
  provideFoldingRanges env document h = (h, Returned []).
Proof.
  intros Hreg. unfold provideFoldingRanges.
  rewrite (bind_returned _ _ h h (registered (languageId document) h) eq_refl).
  by rewrite Hreg.
Qed.

(** X8. Once [provideFoldingRanges] has been called for a document, a
    further call for any document of the same language, under whatever
    settings, returns the empty array and changes nothing at all: no
    message, no timer, no registration. This holds also when the first
    call threw. *)
Theorem provideFoldingRanges_second_call_is_idle (env env' : Env)
    (document document' : TextDocument) (h : Host) :
  languageId document' = languageId document →
  provideFoldingRanges env' document' (provideFoldingRanges env document h).1
  = ((provideFoldingRanges env document h).1, Returned []).
Proof.
  intros Hlang. apply provideFoldingRanges_known. rewrite Hlang.
  destruct (provideFoldingRanges_run env document h) as (h1 & o & E & Hreg & _).
  by rewrite E.
Qed.

Lemma provideFoldingRanges_second_call_is_idle_witness :
  let env := example_env (mkDate 2024 0 15 0) in
  let other := mkDocument 3 "file:///c.py" "python" in
  languageId other = languageId python_file ∧
  provideFoldingRanges env other (provideFoldingRanges env python_file empty_host).1
  = ((provideFoldingRanges env python_file empty_host).1, Returned []).
Proof.
  intros env other. split; [reflexivity|].
  exact (provideFoldingRanges_second_call_is_idle env env python_file other
           empty_host eq_refl).
Defined.

(** The first call for a language, up to the choice between the timer
    and [setup]. *)
Lemma provideFoldingRanges_first env document h :
  registered (languageId document) h = false →
  ∃ h1, getDelay (getConfiguration env "explicitFolding" (Some document))
          (providers_set (languageId document) true h).1
        = (h1, Returned (delay_of (getConfiguration env "explicitFolding" (Some document)))) ∧
    h_providers h1 = <[languageId document := true]> (h_providers h) ∧
    h_disposable h1 = h_disposable h ∧ h_timers h1 = h_timers h ∧
    h_setup_calls h1 = h_setup_calls h ∧ h_documents h1 = h_documents h ∧
    h_commands h1 = h_commands h ∧
    provideFoldingRanges env document h
    = (_ ← (if gt_zero env (delay_of (getConfiguration env "explicitFolding" (Some document)))
            then setTimeout (delay_of (getConfiguration env "explicitFolding" (Some document)))
                   document
            else setup env document);
       mret []) h1.
Proof.
  intros Hreg.
  set (config := getConfiguration env "explicitFolding" (Some document)).
  set (h0 := (providers_set (languageId document) true h).1).
  destruct (calm_getDelay config h0) as (h1 & delay & E & D & P & T & S).
  pose proof (getDelay_value config h0) as Hv. rewrite E in Hv. simpl in Hv.
  injection Hv as ->.
  assert (Kd : keeps h_documents (getDelay config)) by (unfold getDelay; keeps_all).
  assert (Kc : keeps h_commands (getDelay config)) by (unfold getDelay; keeps_all).
  specialize (Kd h0). specialize (Kc h0). rewrite E in Kd, Kc.
  exists h1. split; [done|]. repeat (split; [done|]).
  unfold provideFoldingRanges.
  rewrite (bind_returned _ _ h h (registered (languageId document) h) eq_refl).
  rewrite Hreg. cbn [negb]. fold config.
  unfold mbind at 1, M_bind at 1. unfold mbind at 1, M_bind at 1.
  unfold mbind at 1, M_bind at 1.
  change (providers_set (languageId document) true h) with (h0, Returned ()).
  cbv iota beta. rewrite E. reflexivity.
Qed.

(** What [setup] does to [$documents], and what a throw leaves alone. *)
Lemma setup_documents env document h :
  match checkDeprecatedRule (JArr (setup_rules env document)) [] with
  | Some _ =>
      h_documents (setup env document h).1
      = (if bool_decide (document ∈ h_documents h) then h_documents h
         else h_documents h ++ [document])
  | None =>
      h_documents (setup env document h).1 = h_documents h ∧
      h_commands (setup env document h).1 = h_commands h
  end.
Proof.
  unfold setup.
  rewrite (bind_returned _ _ h _ () eq_refl).
  match goal with |- context [mbind _ (getRules env) ?h0] =>
    destruct (getRules_run env h0) as (h1 & E1 & _);
    assert (D1 : h_documents h1 = h_documents h)
      by (assert (K : keeps h_documents (getRules env))
            by (unfold getRules; keeps_all);
          specialize (K h0); by rewrite E1 in K);
    assert (C1 : h_commands h1 = h_commands h)
      by (assert (K : keeps h_commands (getRules env))
            by (unfold getRules; keeps_all);
          specialize (K h0); by rewrite E1 in K)
  end.
  rewrite (bind_returned _ _ _ _ _ E1).
  rewrite (bind_returned _ _ _ _ _ (use_language_key_run _ _ _ _)).
  cbv zeta.
  change (applyRules (wc_prop (rules_section env) "*") _)
    with (setup_rules env document).
  destruct (checkDeprecatedRules_run (setup_rules env document) h1) as (h2 & _ & E2).
  assert (D2 : h_documents h2 = h_documents h1).
  { assert (K : keeps h_documents (checkDeprecatedRules (setup_rules env document)))
      by (unfold checkDeprecatedRules; keeps_all).
    specialize (K h1). by rewrite E2 in K. }
  assert (C2 : h_commands h2 = h_commands h1).
  { assert (K : keeps h_commands (checkDeprecatedRules (setup_rules env document)))
      by (unfold checkDeprecatedRules; keeps_all).
    specialize (K h1). by rewrite E2 in K. }
  destruct (checkDeprecatedRule (JArr (setup_rules env document)) []) as [d|].
  - rewrite (bind_returned _ _ _ _ _ E2).
    match goal with |- context [getDebugChannel ?b] =>
      destruct (calm_getDebugChannel b h2) as (h3 & channel & E3 & _);
      assert (D3 : h_documents h3 = h_documents h2)
        by (assert (K : keeps h_documents (getDebugChannel b))
              by (unfold getDebugChannel; keeps_all);
            specialize (K h2); by rewrite E3 in K)
    end.
    rewrite (bind_returned _ _ _ _ _ E3).
    destruct (register_schemes_run (languageId document)
                (mkFoldingProvider (setup_rules env document) channel) SCHEMES h3)
      as (h4 & E4 & _).
    assert (D4 : h_documents h4 = h_documents h3).
    { assert (K : keeps h_documents
                (for_of SCHEMES (λ scheme, registerFoldingRangeProvider
                   (languageId document) scheme
                   (mkFoldingProvider (setup_rules env document) channel))))
        by keeps_all.
      specialize (K h3). by rewrite E4 in K. }
    rewrite (bind_returned _ _ _ _ _ E4).
    destruct (foldDocument_run env document h4) as (h5 & E5 & D5).
    rewrite E5. cbn [fst]. rewrite D5, D4, D3, D2, D1. done.
  - rewrite (bind_thrown _ _ _ _ _ E2). cbn [fst].
    split; [by rewrite D2, D1 | by rewrite C2, C1].
Qed.

(** X9. With a positive delay the first call for a language only
    schedules: [setup] is not entered, nothing is registered, no command
    runs and [$documents] stays as it is; one timer is added, for this
    document with the delay [getDelay] returned, and the call returns
    the empty array whatever the configured rules are. *)
Theorem provideFoldingRanges_defers_setup (env : Env) (document : TextDocument)
    (h : Host) :
  let delay := delay_of (getConfiguration env "explicitFolding" (Some document)) in
  registered (languageId document) h = false →
  gt_zero env delay = true →
  ∃ h', provideFoldingRanges env document h = (h', Returned []) ∧
    h_timers h' = h_timers h ++ [(delay, document)] ∧
    h_setup_calls h' = h_setup_calls h ∧ h_disposable h' = h_disposable h ∧
    h_documents h' = h_documents h ∧ h_commands h' = h_commands h ∧
    registered (languageId document) h' = true.
Proof.
  intros delay Hreg Hdelay.
  destruct (provideFoldingRanges_first env document h Hreg)
    as (h1 & _ & P & D & T & S & Dc & C & ->).
  fold delay. rewrite Hdelay.
  eexists. split; [reflexivity|]. simpl. rewrite T, S, D, Dc, C.
  repeat (split; [done|]).
  by apply (registered_marked (languageId document) h).
Qed.

Definition delayed_env : Env :=
  mkEnv (λ _ _, mkConfiguration [] (<["delay" := JNum 500]> ∅))
        (mkDate 2024 0 15 0) (λ _, None) (λ _, None) no_builtin.

Lemma provideFoldingRanges_defers_setup_witness :
  registered (languageId python_file) empty_host = false ∧
  gt_zero delayed_env
    (delay_of (getConfiguration delayed_env "explicitFolding" (Some python_file))) = true ∧
  (provideFoldingRanges delayed_env python_file empty_host).2 = Returned [] ∧
  h_timers (provideFoldingRanges delayed_env python_file empty_host).1
  = [(JNum 500, python_file)].
Proof.
  split; [reflexivity|]. split; [reflexivity|].
  destruct (provideFoldingRanges_defers_setup delayed_env python_file empty_host
              eq_refl eq_refl) as (h' & E & T & _).
  rewrite E. split; [reflexivity | exact T].
Defined.

(** X10. When the first call for a language runs [setup] at once and the
    deprecation check throws, the TypeError leaves [provideFoldingRanges]
    with the language already marked: nothing was registered, and every
    later call for that language returns the empty array without trying
    [setup] again. *)
Theorem provideFoldingRanges_failed_setup_not_retried (env : Env)
    (document : TextDocument) (h : Host) :
  registered (languageId document) h = false →
  gt_zero env (delay_of (getConfiguration env "explicitFolding" (Some document))) = false →
  checkDeprecatedRule (JArr (setup_rules env document)) [] = None →
  ∃ h', provideFoldingRanges env document h = (h', Thrown "TypeError") ∧
    h_disposable h' = h_disposable h ∧ h_timers h' = h_timers h ∧
    h_documents h' = h_documents h ∧ h_commands h' = h_commands h ∧
    ∀ env' document', languageId document' = languageId document →
      provideFoldingRanges env' document' h' = (h', Returned []).
Proof.
  intros Hreg Hdelay Hcheck.
  destruct (provideFoldingRanges_first env document h Hreg)
    as (h1 & _ & P & D & T & S & Dc & C & ->).
  rewrite Hdelay.
  destruct (setup_run env document h1) as (h2 & o & E & P2 & T2 & S2 & Hrun).
  pose proof (setup_documents env document h1) as Hdocs.
  rewrite Hcheck in Hrun, Hdocs. destruct Hrun as [-> D2].
  rewrite E in Hdocs. cbn [fst] in Hdocs. destruct Hdocs as [Dc2 C2].
  exists h2. split; [by rewrite (bind_thrown _ _ _ _ _ E)|].
  split; [by rewrite D2, D|]. split; [by rewrite T2, T|].
  split; [by rewrite Dc2, Dc|]. split; [by rewrite C2, C|].
  intros env' document' Hlang. apply provideFoldingRanges_known.
  rewrite Hlang. apply (registered_marked (languageId document) h).
  by rewrite P2, P.
Qed.

Lemma provideFoldingRanges_failed_setup_not_retried_witness :
  registered (languageId python_file) empty_host = false ∧
  gt_zero broken_env
    (delay_of (getConfiguration broken_env "explicitFolding" (Some python_file))) = false ∧
  checkDeprecatedRule (JArr (setup_rules broken_env python_file)) [] = None ∧
  (provideFoldingRanges broken_env python_file empty_host).2 = Thrown "TypeError" ∧
  (provideFoldingRanges broken_env python_file
     (provideFoldingRanges broken_env python_file empty_host).1).2 = Returned [].
Proof.
  split; [reflexivity|]. split; [reflexivity|]. split; [reflexivity|].
  destruct (provideFoldingRanges_failed_setup_not_retried broken_env python_file
              empty_host eq_refl eq_refl eq_refl) as (h' & E & _ & _ & _ & _ & Hnext).
  rewrite E. split; [reflexivity|]. cbn [fst]. by rewrite Hnext.
Defined.

(** *** setup *)

(** X11. [setup] is all or nothing as far as the editor sees it. Either
    the deprecation check passes and it returns, having registered
    exactly one provider per scheme, in the order of [SCHEMES] and all
    for the document's language, with the document in [$documents]; or
    the check throws and [setup] ends in that TypeError with no
    registration, no command run and [$documents] as it was. *)
Theorem setup_all_or_nothing (env : Env) (document : TextDocument) (h : Host) :
  (∃ h' registrations,
     setup env document h = (h', Returned ()) ∧
     h_disposable h' = h_disposable h ++ registrations ∧
     map reg_scheme registrations = SCHEMES ∧
     Forall (λ reg, reg_language reg = languageId document) registrations ∧
     document ∈ h_documents h')
  ∨ (∃ h', setup env document h = (h', Thrown "TypeError") ∧
       h_disposable h' = h_disposable h ∧ h_commands h' = h_commands h ∧
       h_documents h' = h_documents h ∧ h_timers h' = h_timers h).
Proof.
  destruct (setup_run env document h) as (h' & o & E & _ & T & _ & Hrun).
  pose proof (setup_documents env document h) as Hdocs. rewrite E in Hdocs.
  cbn [fst] in Hdocs.
  destruct (checkDeprecatedRule (JArr (setup_rules env document)) []) as [d|].
  - left. destruct Hrun as (-> & channel & Hd).
    eexists h', _. split; [done|]. split; [exact Hd|]. split; [reflexivity|].
    split; [by repeat constructor|]. rewrite Hdocs.
    destruct (bool_decide (document ∈ h_documents h)) eqn:Hin.
    + by apply bool_decide_eq_true in Hin.
    + apply elem_of_app. right. by left.
  - right. destruct Hrun as (-> & Hd). destruct Hdocs as [Hdc Hc].
    exists h'. done.
Qed.

(** *** Registrations over time *)











(** A call under a delay, the timer running out, and a second call: the
    deferred [setup] registers the three providers, once. *)
Example deferred_setup_registers :
  let later := example_env (mkDate 2024 0 15 0) in
  let '(h, outcomes) :=
    run_events [Call delayed_env python_file; Timeout later 0; Call later python_file]
               empty_host in
  outcomes = [Returned []; Returned []]
  ∧ map reg_scheme (h_disposable h) = SCHEMES
  ∧ h_timers h = [] ∧ h_setup_calls h = ["python"].
Proof. vm_compute. done. Qed.

End Behaviour.

(** ** src/extension.ts: activation *)

Module Activation.
Import Js Vscode Extension Behaviour.

(** *** setupAutoFold *)

(** What the listener of [onDidChangeVisibleTextEditors] is handed and
    reads from the editor when it runs: the visible editors (as their
    documents), [vscode.window.activeTextEditor] and
    [vscode.workspace.textDocuments]. *)
Record EditorsChange := mkEditorsChange {
  editors : list TextDocument;
  activeTextEditor : option TextDocument;
  textDocuments : list TextDocument
}.

(** The listener [setupAutoFold] installs. [documents] is the variable of
    the enclosing call that the listener reads and assigns; the value
    returned is its new contents. *)
Definition onDidChangeVisibleTextEditors (env : Env) (change : EditorsChange)
    (documents : list TextDocument) : M (list TextDocument) :=
  match activeTextEditor change with
  | Some activeDocument =>
      if negb (length (editors change) =? 0)%nat then
        _ ← (if negb (bool_decide (activeDocument ∈ documents))
             then foldDocument env activeDocument
             else mret ());
        mret (textDocuments change)
      else mret documents
  | None => mret documents
  end.

(** The listener over a series of changes, from the empty [documents] a
    call of [setupAutoFold] starts with. *)
Fixpoint run_changes (changes : list (Env * EditorsChange))
    (documents : list TextDocument) (h : Host) : Host * list TextDocument :=
  match changes with
  | [] => (h, documents)
  | (env, change) :: rest =>
      match onDidChangeVisibleTextEditors env change documents h with
      | (h', Returned documents') => run_changes rest documents' h'
      | (h', Thrown _) => run_changes rest documents h'
      end
  end.

(** *** The version check of activate *)

Definition VERSION_KEY : string := "explicitFoldingVersion".

(** What the version check reads and writes: the entry of [globalState]
    under [VERSION_KEY], and the texts passed to
    [showInformationMessage] by [showWhatsNewMessage]. *)
Record Versions := mkVersions {
  stored_version : option string;
  announcements : list string
}.

(** [s.split('.')] *)
Fixpoint split_dot (s : string) : list string :=
  match s with
  | EmptyString => [EmptyString]
  | String c rest =>
      if (Ascii.nat_of_ascii c =? 46)%nat then EmptyString :: split_dot rest
      else match split_dot rest with
           | part :: parts => String c part :: parts
           | [] => [String c EmptyString]
           end
  end.

(** [a < b] on two strings: by code units, the shorter first when one
    is a prefix of the other. *)
Fixpoint str_lt (a b : string) : bool :=
  match a, b with
  | _, EmptyString => false
  | EmptyString, String _ _ => true
  | String x a', String y b' =>
      if (Ascii.nat_of_ascii x <? Ascii.nat_of_ascii y)%nat then true
      else if (Ascii.nat_of_ascii x =? Ascii.nat_of_ascii y)%nat then str_lt a' b'
      else false
  end.

(** [a > b] where either side may be [undefined], a missing element of
    the array [split] returned: then the comparison is false. *)
Definition part_gt (a b : option string) : bool :=
  match a, b with
  | Some x, Some y => str_lt y x
  | _, _ => false
  end.

(** [a === b] on such parts. *)
Definition part_eq (a b : option string) : bool :=
  match a, b with
  | Some x, Some y => String.eqb x y
  | None, None => true
  | _, _ => false
  end.

(** The message of [showWhatsNewMessage]. *)
Definition WHATS_NEW (version : string) : string :=
  "Explicit Folding has been updated to v" +:+ version +:+ " — check out what's new!".

(** The condition under which [activate] calls [showWhatsNewMessage],
    once it has found the version changed and a previous version on
    record. *)
Definition announces (notification : JsValue) (currentVersion previousVersion : string)
    : bool :=
  let cur := split_dot currentVersion in
  let prev := split_dot previousVersion in
  if strict_eq_str notification "major" then part_gt (cur !! 0%nat) (prev !! 0%nat)
  else if strict_eq_str notification "minor" then
    part_gt (cur !! 0%nat) (prev !! 0%nat)
    || (part_eq (cur !! 0%nat) (prev !! 0%nat) && part_gt (cur !! 1%nat) (prev !! 1%nat))
  else negb (strict_eq_str notification "none").

(** The first statements of [activate]: [currentVersion] is
    [pkg.version], [notification] the value of the setting
    [explicitFolding.notification]. *)
Definition check_version (notification : JsValue) (currentVersion : string)
    (v : Versions) : Versions :=
  let previousVersion := stored_version v in
  match previousVersion with
  | None => mkVersions (Some currentVersion) (announcements v)
  | Some previous =>
      if negb (String.eqb currentVersion previous) then
        mkVersions (Some currentVersion)
          (if announces notification currentVersion previous
           then announcements v ++ [WHATS_NEW currentVersion]
           else announcements v)
      else v
  end.

(** What [showWhatsNewMessage] opens once the message is answered:
    nothing when it is dismissed, the homepage of the package for the
    first action, its change log for the second. *)
Inductive Answer := Dismissed | Homepage | ReleaseNotes.

Definition whats_new_opens (homepage : string) (answer : Answer) : option string :=
  match answer with
  | Dismissed => None
  | Homepage => Some homepage
  | ReleaseNotes => Some (homepage +:+ "/blob/master/CHANGELOG.md")
  end.


(** *** Properties of the listener of setupAutoFold *)

Lemma onDidChangeVisibleTextEditors_returns (env : Env) (change : EditorsChange)
    (documents : list TextDocument) (h : Host) :
  ∃ documents',
    (onDidChangeVisibleTextEditors env change documents h).2 = Returned documents'.
Proof.
  unfold onDidChangeVisibleTextEditors.
  destruct (activeTextEditor change) as [d|]; [|by eexists].
  destruct (negb _); [|by eexists].
  destruct (negb (bool_decide _)).
  - destruct (foldDocument_returns env d h) as [h' Hf].
    unfold mbind, M_bind. rewrite Hf. by eexists.
  - by eexists.
Qed.

(** X13. A document object that was among the open documents at the last
    change of the visible editors that had an active editor is not folded
    when it becomes the active document at the next change: that change issues
    no command and leaves the whole state as it was; only the list of
    open documents the listener keeps is refreshed, when an editor is
    visible. *)
Theorem onDidChangeVisibleTextEditors_skips_open_document
    (env1 env2 : Env) (change1 change2 : EditorsChange)
    (documents : list TextDocument) (h : Host) (active1 active2 : TextDocument) :
  editors change1 ≠ [] →
  activeTextEditor change1 = Some active1 →
  active2 ∈ textDocuments change1 →
  activeTextEditor change2 = Some active2 →
  run_changes [(env1, change1); (env2, change2)] documents h
  = ((run_changes [(env1, change1)] documents h).1,
     if (length (editors change2) =? 0)%nat then textDocuments change1
     else textDocuments change2).
Proof.
  intros Hed Ha1 Hin Ha2.
  assert (Hlen : (length (editors change1) =? 0)%nat = false).
  { destruct (editors change1); [done|reflexivity]. }
  cbn [run_changes].
  destruct (onDidChangeVisibleTextEditors env1 change1 documents h)
    as [h1 o1] eqn:E1.
  assert (Ho1 : o1 = Returned (textDocuments change1)).
  { unfold onDidChangeVisibleTextEditors in E1.
    rewrite Ha1, Hlen in E1. cbn [negb] in E1.
    destruct (negb (bool_decide (active1 ∈ documents))).
    - destruct (foldDocument_returns env1 active1 h) as [h' Hf].
      unfold mbind, M_bind in E1. rewrite Hf in E1.
      by injection E1 as <- <-.
    - by injection E1 as <- <-. }
  subst o1. cbn [fst].
  unfold onDidChangeVisibleTextEditors. rewrite Ha2.
  rewrite (bool_decide_eq_true_2 _ Hin). cbn [negb].
  destruct (length (editors change2) =? 0)%nat; reflexivity.
Qed.

Definition opens_python : EditorsChange :=
  mkEditorsChange [python_file] (Some python_file) [python_file; ruby_file].
Definition shows_ruby : EditorsChange :=
  mkEditorsChange [ruby_file] (Some ruby_file) [ruby_file].

Lemma onDidChangeVisibleTextEditors_skips_open_document_witness :
  ruby_file ∈ textDocuments opens_python ∧
  h_commands (run_changes [(autoFold_env "all" None, opens_python);
                           (autoFold_env "all" None, shows_ruby)] [] empty_host).1
  = ["editor.foldAll"].
Proof.
  assert (H : ruby_file ∈ textDocuments opens_python) by (right; left).
  split; [exact H|].
  rewrite (onDidChangeVisibleTextEditors_skips_open_document
             (autoFold_env "all" None) (autoFold_env "all" None)
             opens_python shows_ruby [] empty_host python_file ruby_file
             ltac:(discriminate) eq_refl H eq_refl).
  reflexivity.
Defined.

(** *** Properties of the version check *)

(** X14. The version check leaves the current version on record; run
    again with the same current version it changes nothing, whatever the
    setting is then; and on a first run, with no version on record, it
    announces nothing. *)
Theorem check_version_records_version (notification notification' : JsValue)
    (currentVersion : string) (v : Versions) :
  stored_version (check_version notification currentVersion v) = Some currentVersion ∧
  check_version notification' currentVersion
    (check_version notification currentVersion v)
  = check_version notification currentVersion v ∧
  (stored_version v = None →
   announcements (check_version notification currentVersion v) = announcements v).
Proof.
  assert (Hsame : ∀ w, stored_version w = Some currentVersion →
                       check_version notification' currentVersion w = w).
  { intros w Hw. unfold check_version. rewrite Hw.
    by rewrite String.eqb_refl. }
  assert (Hst : stored_version (check_version notification currentVersion v)
                = Some currentVersion).
  { unfold check_version.
    destruct (stored_version v) as [previous|] eqn:Hp; [|reflexivity].
    destruct (String.eqb currentVersion previous) eqn:He; cbn [negb].
    - apply String.eqb_eq in He. by subst.
    - reflexivity. }
  split; [exact Hst|]. split; [by apply Hsame|].
  intros Hnone. unfold check_version. by rewrite Hnone.
Qed.

(** The three kinds of setting, from the most to the least silent. *)
Lemma announces_major_minor (currentVersion previousVersion : string) :
  announces (JStr "major") currentVersion previousVersion = true →
  announces (JStr "minor") currentVersion previousVersion = true.
Proof.
  unfold announces. cbn [strict_eq_str String.eqb Ascii.eqb Bool.eqb].
  cbn. intros ->. reflexivity.
Qed.

Lemma announces_other (notification : JsValue) (currentVersion previousVersion : string) :
  strict_eq_str notification "major" = false →
  strict_eq_str notification "minor" = false →
  strict_eq_str notification "none" = false →
  announces notification currentVersion previousVersion = true.
Proof. unfold announces. by intros -> -> ->. Qed.

Lemma announces_none (currentVersion previousVersion : string) :
  announces (JStr "none") currentVersion previousVersion = false.
Proof. reflexivity. Qed.

(** X15. The settings are ordered: whatever is announced under ["major"]
    is announced under ["minor"], whatever is announced under ["minor"]
    is announced under any setting that is none of ["major"], ["minor"]
    and ["none"] (a missing setting among them), and nothing is announced
    under ["none"]. *)
Theorem check_version_settings_ordered (notification : JsValue)
    (currentVersion : string) (v : Versions) :
  strict_eq_str notification "major" = false →
  strict_eq_str notification "minor" = false →
  strict_eq_str notification "none" = false →
  announcements (check_version (JStr "none") currentVersion v) = announcements v ∧
  announcements (check_version (JStr "major") currentVersion v)
    `prefix_of` announcements (check_version (JStr "minor") currentVersion v) ∧
  announcements (check_version (JStr "minor") currentVersion v)
    `prefix_of` announcements (check_version notification currentVersion v).
Proof.
  intros Hmaj Hmin Hnone. unfold check_version.
  destruct (stored_version v) as [previous|]; [|done].
  destruct (negb (String.eqb currentVersion previous)); [|done].
  cbn [announcements].
  rewrite (announces_other notification currentVersion previous Hmaj Hmin Hnone).
  rewrite announces_none.
  split; [reflexivity|]. split.
  - destruct (announces (JStr "major") currentVersion previous) eqn:E.
    + by rewrite (announces_major_minor _ _ E).
    + destruct (announces (JStr "minor") currentVersion previous);
        [by apply prefix_app_r | done].
  - destruct (announces (JStr "minor") currentVersion previous);
      [done | by apply prefix_app_r].
Qed.

Lemma check_version_settings_ordered_witness :
  announcements (check_version (JStr "major") "2.1.0" (mkVersions (Some "2.0.3") []))
    `prefix_of`
  announcements (check_version (JStr "minor") "2.1.0" (mkVersions (Some "2.0.3") [])) ∧
  announcements (check_version (JStr "minor") "2.1.0" (mkVersions (Some "2.0.3") []))
    `prefix_of`
  announcements (check_version JUndefined "2.1.0" (mkVersions (Some "2.0.3") [])).
Proof.
  exact (proj2 (check_version_settings_ordered JUndefined "2.1.0"
                  (mkVersions (Some "2.0.3") []) eq_refl eq_refl eq_refl)).
Defined.

(** *** Version numbers compared as strings *)

(** The number a string of decimal digits writes. *)
Fixpoint numeral_from (acc : nat) (s : string) : nat :=
  match s with
  | EmptyString => acc
  | String c rest => numeral_from (10 * acc + (Ascii.nat_of_ascii c - 48)) rest
  end.

Definition numeral (s : string) : nat := numeral_from 0 s.

Fixpoint all_digits (s : string) : bool :=
  match s with
  | EmptyString => true
  | String c rest => is_digit c && all_digits rest
  end.

Lemma numeral_from_acc (s : string) (acc : nat) :
  numeral_from acc s = (acc * 10 ^ String.length s + numeral s)%nat.
Proof.
  unfold numeral. revert acc.
  induction s as [|c s IH]; intros acc.
  - cbn [numeral_from String.length]. rewrite Nat.pow_0_r. lia.
  - cbn [numeral_from String.length].
    rewrite (IH (10 * acc + _)%nat), (IH (10 * 0 + _)%nat).
    rewrite Nat.pow_succ_r'. lia.
Qed.

Lemma numeral_cons (c : Ascii.ascii) (s : string) :
  numeral (String c s)
  = ((Ascii.nat_of_ascii c - 48) * 10 ^ String.length s + numeral s)%nat.
Proof.
  unfold numeral at 1. cbn [numeral_from].
  rewrite numeral_from_acc. f_equal; lia.
Qed.

Lemma numeral_bound (s : string) :
  all_digits s = true → (numeral s < 10 ^ String.length s)%nat.
Proof.
  induction s as [|c s IH]; intros Hd.
  - cbn. lia.
  - cbn [all_digits] in Hd. apply andb_prop in Hd as [Hc Hs].
    specialize (IH Hs). rewrite numeral_cons.
    cbn [String.length]. rewrite Nat.pow_succ_r'.
    unfold is_digit in Hc. apply andb_prop in Hc as [_ Hc].
    apply Nat.leb_le in Hc. nia.
Qed.

Lemma str_lt_numeral (a b : string) :
  all_digits a = true → all_digits b = true →
  String.length a = String.length b →
  str_lt a b = (numeral a <? numeral b)%nat.
Proof.
  revert b. induction a as [|x a IH]; intros [|y b] Ha Hb Hlen;
    try discriminate; [reflexivity|].
  cbn [all_digits] in Ha, Hb.
  apply andb_prop in Ha as [Hx Ha]. apply andb_prop in Hb as [Hy Hb].
  injection Hlen as Hlen.
  pose proof (numeral_bound a Ha) as Ba.
  pose proof (numeral_bound b Hb) as Bb.
  rewrite !numeral_cons, <- Hlen in *.
  unfold is_digit in Hx, Hy.
  apply andb_prop in Hx as [Hx1 Hx2]. apply andb_prop in Hy as [Hy1 Hy2].
  apply Nat.leb_le in Hx1, Hx2, Hy1, Hy2.
  cbn [str_lt]. specialize (IH b Ha Hb Hlen).
  set (P := (10 ^ String.length a)%nat) in *.
  destruct (Nat.ltb_spec (Ascii.nat_of_ascii x) (Ascii.nat_of_ascii y)) as [Hlt|Hge].
  - symmetry. apply Nat.ltb_lt. nia.
  - destruct (Nat.eqb_spec (Ascii.nat_of_ascii x) (Ascii.nat_of_ascii y)) as [He|Hne].
    + rewrite IH, He.
      destruct (Nat.ltb_spec (numeral a) (numeral b)) as [H1|H1];
        symmetry; [apply Nat.ltb_lt | apply Nat.ltb_ge]; lia.
    + symmetry. apply Nat.ltb_ge. nia.
Qed.

(** X16. Under ["major"], when the first components of the two versions
    are strings of decimal digits of one length, the check announces the
    new version exactly when its first component is the greater number. *)
Theorem announces_major_numeric (currentVersion previousVersion a b : string) :
  split_dot currentVersion !! 0%nat = Some a →
  split_dot previousVersion !! 0%nat = Some b →
  all_digits a = true → all_digits b = true →
  String.length a = String.length b →
  announces (JStr "major") currentVersion previousVersion
  = (numeral b <? numeral a)%nat.
Proof.
  intros Hc Hp Ha Hb Hlen. unfold announces.
  change (strict_eq_str (JStr "major") "major") with true. cbv iota.
  rewrite Hc, Hp. cbn [part_gt].
  by apply str_lt_numeral.
Qed.

Lemma announces_major_numeric_witness :
  announces (JStr "major") "12.0.1" "11.4.0" = true ∧
  announces (JStr "major") "11.4.0" "12.0.1" = false.
Proof.
  split.
  - exact (announces_major_numeric "12.0.1" "11.4.0" "12" "11"
             eq_refl eq_refl eq_refl eq_refl eq_refl).
  - exact (announces_major_numeric "11.4.0" "12.0.1" "11" "12"
             eq_refl eq_refl eq_refl eq_refl eq_refl).
Defined.

(** X17. Under ["major"] the first components are compared as strings,
    so a greater number with more digits is not always seen as greater:
    when the first component of the new version has more digits than the
    old one's, starts with a digit other than 0, and that digit is
    smaller than the first digit of the old one's, the new first
    component is the greater number and yet nothing is announced. *)
Theorem check_version_major_more_digits (currentVersion previousVersion : string)
    (x y : Ascii.ascii) (a b : string) (shown : list string) :
  split_dot currentVersion !! 0%nat = Some (String x a) →
  split_dot previousVersion !! 0%nat = Some (String y b) →
  all_digits (String x a) = true → all_digits (String y b) = true →
  (String.length b < String.length a)%nat →
  (48 < Ascii.nat_of_ascii x < Ascii.nat_of_ascii y)%nat →
  (numeral (String y b) < numeral (String x a))%nat ∧
  check_version (JStr "major") currentVersion (mkVersions (Some previousVersion) shown)
  = mkVersions (Some currentVersion) shown.
Proof.
  intros Hc Hp Ha Hb Hlen [Hx Hxy]. split.
  - pose proof (numeral_bound _ Hb) as Bb.
    rewrite (numeral_cons x a). cbn [String.length] in Bb.
    assert (10 ^ S (String.length b) ≤ 10 ^ String.length a)%nat
      by (apply Nat.pow_le_mono_r; lia).
    assert (1 * 10 ^ String.length a
            ≤ (Ascii.nat_of_ascii x - 48) * 10 ^ String.length a)%nat
      by (apply Nat.mul_le_mono_r; lia).
    lia.
  - unfold check_version. cbn [stored_version announcements].
    assert (Hne : String.eqb currentVersion previousVersion = false).
    { apply String.eqb_neq. intros ->. rewrite Hc in Hp.
      injection Hp as -> _. lia. }
    rewrite Hne. cbn [negb].
    unfold announces.
    change (strict_eq_str (JStr "major") "major") with true. cbv iota.
    rewrite Hc, Hp. cbn [part_gt str_lt].
    destruct (Nat.ltb_spec (Ascii.nat_of_ascii y) (Ascii.nat_of_ascii x)); [lia|].
    destruct (Nat.eqb_spec (Ascii.nat_of_ascii y) (Ascii.nat_of_ascii x)); [lia|].
    reflexivity.
Qed.

Lemma check_version_major_more_digits_witness :
  (numeral "9" < numeral "10")%nat ∧
  check_version (JStr "major") "10.0.0" (mkVersions (Some "9.3.1") [])
  = mkVersions (Some "10.0.0") [].
Proof.
  refine (check_version_major_more_digits "10.0.0" "9.3.1" (Ascii.ascii_of_nat 49) (Ascii.ascii_of_nat 57) "0" "" []
            eq_refl eq_refl eq_refl eq_refl _ _); vm_compute; lia.
Defined.
End Activation.
